(** * Request orchestration and result store of the image grid application

    A shallow embedding of [src/App.tsx] and [src/types.ts]: the React state
    of the [App] component is a record, every event handler is a function
    from the state at the time it runs to the state after all its setters
    have been applied, paired with the list of calls it issued to the
    external image service.  What the service, the clock and the UUID source
    answer is an explicit argument of each handler.

    A handler is followed from its start to its completion in one step: the
    values it closes over and the state its setters update are those of the
    same state.  The one place where the order of completions is visible,
    [Promise.allSettled] over the seven edit calls, is modelled with that
    order as an input. *)

From Stdlib Require Import ZArith DecimalString DecimalZ Permutation.
From stdpp Require Import base list strings.

Local Open Scope string_scope.
Local Open Scope list_scope.

(** ** JavaScript helpers *)

(** Truthiness of a string: only the empty string is falsy. *)
Definition truthy (s : string) : bool :=
  match s with
  | EmptyString => false
  | String _ _ => true
  end.

(** [m || d] for a possibly undefined string [m]. *)
Definition or_else (m : option string) (d : string) : string :=
  match m with
  | Some s => if truthy s then s else d
  | None => d
  end.

(** [s.includes(needle)]. *)
Fixpoint includes (s needle : string) : bool :=
  if String.prefix needle s then true
  else match s with
       | EmptyString => false
       | String _ t => includes t needle
       end.

(** [m?.includes(needle)] used as a condition: undefined is falsy. *)
Definition opt_includes (m : option string) (needle : string) : bool :=
  match m with
  | Some s => includes s needle
  | None => false
  end.

(** [n.toString()] for an integral number. *)
Definition toString (n : Z) : string := NilZero.string_of_int (Z.to_int n).

(** ** types.ts *)

(** [ImageResult]; the fields carry the prefix [img_] because [id] and
    [prompt] are also names of the component. *)
Record ImageResult := mkImageResult {
  img_id : string;
  img_data : string;
  img_mimeType : string;
  img_prompt : string;
  img_model : string;
  img_timestamp : Z
}.

Inductive GenerationMode := GENERATE | EDIT_ANGLES.

Inductive ImageSize := SIZE_1K | SIZE_2K | SIZE_4K.

(** ['1:1' | '3:4' | '4:3' | '16:9' | '9:16'] *)
Inductive AspectRatio := R1_1 | R3_4 | R4_3 | R16_9 | R9_16.

(** ** The external service, as seen from App.tsx *)

(** The value a promise rejects with.  The handlers only ever read its
    [message] property, which may be missing. *)
Record Reason := mkReason { message : option string }.

(** [new Error(msg)] *)
Definition Error (msg : string) : Reason := mkReason (Some msg).

(** Outcome of a settled promise ([PromiseSettledResult]). *)
Inductive Settled (A : Type) :=
| Fulfilled (value : A)
| Rejected (reason : Reason).
Arguments Fulfilled {A} value.
Arguments Rejected {A} reason.

(** Calls to [services/geminiService], with their arguments. *)
Inductive Call :=
| CallGenerate (prompt : string) (size : ImageSize) (ratio : AspectRatio)
| CallEdit (image : string) (instruction : string) (ratio : AspectRatio)
| CallUpscale (image : string) (contextPrompt : string) (size : ImageSize).

(** What the environment answers during one [generateImagePro] or
    [upscaleImage] round: the outcome of the call and the two readings of
    [Date.now()] (one for the id, one for the timestamp). *)
Record ProWorld := mkProWorld {
  pro_reply : Settled string;
  pro_now_id : Z;
  pro_now_ts : Z
}.

(** What the environment answers during one edit batch, per position in the
    angle table: the outcome of [editImageFlash], the value of
    [crypto.randomUUID()] and the reading of [Date.now()]; and the order in
    which the calls settle. *)
Record FlashWorld := mkFlashWorld {
  flash_reply : nat -> Settled string;
  flash_uuid : nat -> string;
  flash_now : nat -> Z;
  flash_order : list nat
}.

(** ** Component state *)

(** The two values [zoomLevel] ever takes: 1 and 2.5. *)
Inductive ZoomLevel := Zoom1 | Zoom2_5.

Record AppState := mkAppState {
  mode : GenerationMode;
  prompt : string;
  inputImage : option string;
  generatedImages : list ImageResult;
  isLoading : bool;
  error : option string;
  selectedSize : ImageSize;
  selectedRatio : AspectRatio;
  viewImage : option ImageResult;
  isUpscaling : bool;
  zoomLevel : ZoomLevel;
  hasApiKey : bool
}.

(** The [useState] defaults. *)
Definition initialState : AppState :=
  {| mode := EDIT_ANGLES; prompt := ""; inputImage := None;
     generatedImages := []; isLoading := false; error := None;
     selectedSize := SIZE_1K; selectedRatio := R1_1;
     viewImage := None; isUpscaling := false; zoomLevel := Zoom1;
     hasApiKey := true |}.

Definition setMode (v : GenerationMode) (s : AppState) : AppState :=
  mkAppState v (prompt s) (inputImage s) (generatedImages s) (isLoading s)
    (error s) (selectedSize s) (selectedRatio s) (viewImage s)
    (isUpscaling s) (zoomLevel s) (hasApiKey s).

Definition setPrompt (v : string) (s : AppState) : AppState :=
  mkAppState (mode s) v (inputImage s) (generatedImages s) (isLoading s)
    (error s) (selectedSize s) (selectedRatio s) (viewImage s)
    (isUpscaling s) (zoomLevel s) (hasApiKey s).

Definition setInputImage (v : option string) (s : AppState) : AppState :=
  mkAppState (mode s) (prompt s) v (generatedImages s) (isLoading s)
    (error s) (selectedSize s) (selectedRatio s) (viewImage s)
    (isUpscaling s) (zoomLevel s) (hasApiKey s).

(** [setGeneratedImages], in its updater form [prev => f prev]; the plain
    form [setGeneratedImages(v)] is the constant updater. *)
Definition updGeneratedImages (f : list ImageResult -> list ImageResult)
    (s : AppState) : AppState :=
  mkAppState (mode s) (prompt s) (inputImage s) (f (generatedImages s))
    (isLoading s) (error s) (selectedSize s) (selectedRatio s) (viewImage s)
    (isUpscaling s) (zoomLevel s) (hasApiKey s).

Definition setGeneratedImages (v : list ImageResult) : AppState -> AppState :=
  updGeneratedImages (fun _ => v).

Definition setIsLoading (v : bool) (s : AppState) : AppState :=
  mkAppState (mode s) (prompt s) (inputImage s) (generatedImages s) v
    (error s) (selectedSize s) (selectedRatio s) (viewImage s)
    (isUpscaling s) (zoomLevel s) (hasApiKey s).

Definition setError (v : option string) (s : AppState) : AppState :=
  mkAppState (mode s) (prompt s) (inputImage s) (generatedImages s)
    (isLoading s) v (selectedSize s) (selectedRatio s) (viewImage s)
    (isUpscaling s) (zoomLevel s) (hasApiKey s).

Definition setZoomLevel (v : ZoomLevel) (s : AppState) : AppState :=
  mkAppState (mode s) (prompt s) (inputImage s) (generatedImages s)
    (isLoading s) (error s) (selectedSize s) (selectedRatio s) (viewImage s)
    (isUpscaling s) v (hasApiKey s).

(** [setViewImage], followed by the effect that depends on [viewImage]:
    [if (viewImage) setZoomLevel(1)]. *)
Definition setViewImage (v : option ImageResult) (s : AppState) : AppState :=
  let s' :=
    mkAppState (mode s) (prompt s) (inputImage s) (generatedImages s)
      (isLoading s) (error s) (selectedSize s) (selectedRatio s) v
      (isUpscaling s) (zoomLevel s) (hasApiKey s) in
  match v with
  | Some _ => setZoomLevel Zoom1 s'
  | None => s'
  end.

Definition setIsUpscaling (v : bool) (s : AppState) : AppState :=
  mkAppState (mode s) (prompt s) (inputImage s) (generatedImages s)
    (isLoading s) (error s) (selectedSize s) (selectedRatio s) (viewImage s)
    v (zoomLevel s) (hasApiKey s).

Definition setHasApiKey (v : bool) (s : AppState) : AppState :=
  mkAppState (mode s) (prompt s) (inputImage s) (generatedImages s)
    (isLoading s) (error s) (selectedSize s) (selectedRatio s) (viewImage s)
    (isUpscaling s) (zoomLevel s) v.

(** ** handleImageUpload *)

(** The argument is [e.target.files?.[0]] after the reader has finished:
    [None] when no file was chosen, otherwise [reader.result], which is the
    data URL or null when reading failed. *)
Definition handleImageUpload (file : option (option string)) (s : AppState)
    : AppState * list Call :=
  match file with
  | Some result => (setGeneratedImages [] (setInputImage result s), [])
  | None => (s, [])
  end.

(** ** handleGenerate *)

Record AngleSpec := mkAngle { name : string; promptSuffix : string }.

Definition angles : list AngleSpec :=
  [ mkAngle "Low Angle" "viewed from a low camera angle, looking up, dramatic perspective";
    mkAngle "High Angle" "viewed from a high camera angle, looking down, bird's eye view";
    mkAngle "Side Profile" "viewed from the side profile, cinematic lighting";
    mkAngle "Wide Shot" "wide angle shot, showing surrounding context, environmental view";
    mkAngle "Close Up" "extreme close up shot, highly detailed texture, macro photography style";
    mkAngle "Dutch Angle" "Dutch angle shot, tilted camera horizon, dynamic energy, unease";
    mkAngle "Over the Shoulder" "over-the-shoulder shot, narrative perspective, depth of field" ].

(** The substring that marks a failure as an entitlement failure. *)
Definition ENTITY_NOT_FOUND : string := "Requested entity was not found".

Definition fullPrompt (prompt : string) (angle : AngleSpec) : string :=
  if truthy prompt
  then prompt +:+ ", " +:+ promptSuffix angle
  else "Keep the subject but change camera to " +:+ promptSuffix angle.

(** The outcome of the promise built for the angle at position [i]. *)
Definition editPromise (fw : FlashWorld) (prompt : string) (i : nat)
    (angle : AngleSpec) : Settled ImageResult :=
  match flash_reply fw i with
  | Fulfilled resultBase64 =>
      Fulfilled {| img_id := flash_uuid fw i;
                   img_data := resultBase64;
                   img_mimeType := "image/png";
                   img_prompt := name angle +:+ ": " +:+ fullPrompt prompt angle;
                   img_model := "gemini-2.5-flash-image";
                   img_timestamp := flash_now fw i |}
  | Rejected reason => Rejected reason
  end.

(** [Promise.allSettled]: one slot per promise, filled in when that promise
    settles, whatever the order; the result is available once every slot is
    filled, and never if one stays empty. *)
Definition settle {A} (promises : list A) (slots : list (option A)) (i : nat)
    : list (option A) :=
  match promises !! i with
  | Some r => <[i := Some r]> slots
  | None => slots
  end.

Definition allSettled {A} (order : list nat) (promises : list A)
    : option (list A) :=
  mapM (fun slot => slot)
    (fold_left (settle promises) order (replicate (length promises) None)).

Definition isFulfilled {A} (r : Settled A) : bool :=
  match r with Fulfilled _ => true | Rejected _ => false end.

Definition isRejected {A} (r : Settled A) : bool :=
  match r with Fulfilled _ => false | Rejected _ => true end.

(** [results.filter(r => r.status === 'fulfilled').map(r => r.value)] *)
Fixpoint fulfilledValues {A} (results : list (Settled A)) : list A :=
  match results with
  | [] => []
  | Fulfilled v :: rest => v :: fulfilledValues rest
  | Rejected _ :: rest => fulfilledValues rest
  end.

(** [r.value] of a fulfilled outcome. *)
Definition valueOf {A} (r : Settled A) : option A :=
  match r with Fulfilled v => Some v | Rejected _ => None end.

(** [results.find(r => r.status === 'rejected')?.reason?.message] *)
Fixpoint firstRejectedMessage {A} (results : list (Settled A)) : option string :=
  match results with
  | [] => None
  | Rejected reason :: _ => message reason
  | Fulfilled _ :: rest => firstRejectedMessage rest
  end.

(** The [catch] block of [handleGenerate]. *)
Definition catchGenerate (err : Reason) (s : AppState) : AppState :=
  let s1 := setError (Some (or_else (message err) "An error occurred during generation")) s in
  if opt_includes (message err) ENTITY_NOT_FOUND || opt_includes (message err) "API key"
  then setHasApiKey false s1
  else s1.

Definition handleGenerate (pw : ProWorld) (fw : FlashWorld) (s : AppState)
    : AppState * list Call :=
  let s0 := setIsLoading true (setError None s) in
  let finally := setIsLoading false in
  match mode s with
  | GENERATE =>
      if negb (hasApiKey s) then (finally (setIsLoading false s0), [])
      else if negb (truthy (prompt s)) then
        (finally (catchGenerate (Error "Please enter a prompt description.") s0), [])
      else
        let call := CallGenerate (prompt s) (selectedSize s) (selectedRatio s) in
        match pro_reply pw with
        | Fulfilled base64 =>
            (finally (setGeneratedImages
                        [ {| img_id := toString (pro_now_id pw);
                             img_data := base64;
                             img_mimeType := "image/png";
                             img_prompt := prompt s;
                             img_model := "gemini-3-pro-image-preview";
                             img_timestamp := pro_now_ts pw |} ] s0),
             [call])
        | Rejected err => (finally (catchGenerate err s0), [call])
        end
  | EDIT_ANGLES =>
      match inputImage s with
      | Some (String c rest) =>
          let image := String c rest in
          let calls :=
            map (fun angle => CallEdit image (fullPrompt (prompt s) angle) (selectedRatio s))
                angles in
          let promises := imap (editPromise fw (prompt s)) angles in
          match allSettled (flash_order fw) promises with
          | None => (s0, calls)
          | Some results =>
              let successfulImages := fulfilledValues results in
              if (length successfulImages =? 0)%nat then
                let rejected := firstRejectedMessage results in
                let s1 := if opt_includes rejected ENTITY_NOT_FOUND
                          then setHasApiKey false s0 else s0 in
                (finally (catchGenerate
                            (Error (or_else rejected "Failed to generate any variations."))
                            s1),
                 calls)
              else (finally (setGeneratedImages successfulImages s0), calls)
          end
      | _ =>
          (finally (catchGenerate (Error "Please upload an image first.") s0), [])
      end
  end.

(** ** handleUpscale *)

(** The [catch] block of [handleUpscale]. *)
Definition catchUpscale (err : Reason) (s : AppState) : AppState :=
  let s1 := setError (Some (or_else (message err) "Failed to upscale")) s in
  if opt_includes (message err) ENTITY_NOT_FOUND
  then setHasApiKey false s1
  else s1.

Definition handleUpscale (pw : ProWorld) (imageToUpscale : ImageResult)
    (s : AppState) : AppState * list Call :=
  if negb (hasApiKey s) then (setHasApiKey false s, [])
  else
    let s0 := setIsUpscaling true s in
    let finally := setIsUpscaling false in
    let call := CallUpscale (img_data imageToUpscale) (img_prompt imageToUpscale) SIZE_4K in
    match pro_reply pw with
    | Fulfilled upscaledBase64 =>
        let upscaledResult :=
          {| img_id := toString (pro_now_id pw);
             img_data := upscaledBase64;
             img_mimeType := "image/png";
             img_prompt := img_prompt imageToUpscale;
             img_model := "gemini-3-pro-image-preview (Upscaled)";
             img_timestamp := pro_now_ts pw |} in
        (finally (updGeneratedImages (cons upscaledResult)
                    (setViewImage (Some upscaledResult) s0)),
         [call])
    | Rejected err => (finally (catchUpscale err s0), [call])
    end.

(** ** The controls that reach the handlers *)

(** [disabled] of the button that runs [handleGenerate]. *)
Definition generateDisabled (s : AppState) : bool :=
  isLoading s
  || match mode s with
     | EDIT_ANGLES => negb (match inputImage s with Some i => truthy i | None => false end)
     | GENERATE => negb (truthy (prompt s))
     end.

(** [disabled] of the button that runs [handleUpscale(viewImage)]. *)
Definition upscaleDisabled (s : AppState) (v : ImageResult) : bool :=
  isUpscaling s || includes (img_model v) "Upscaled".

(** Modelled from the spec: the [Button] component of [components/Button]
    is not among the sources; the guard of section 4.3 is a caller-side
    guard that makes the operation not invocable, so a button whose
    [disabled] is true does not run its [onClick].  The viewer, and the
    button in it, is rendered only while [viewImage] is set. *)
Definition clickUpscale (pw : ProWorld) (s : AppState) : AppState * list Call :=
  match viewImage s with
  | Some v => if upscaleDisabled s v then (s, []) else handleUpscale pw v s
  | None => (s, [])
  end.

Definition clickGenerate (pw : ProWorld) (fw : FlashWorld) (s : AppState)
    : AppState * list Call :=
  if generateDisabled s then (s, []) else handleGenerate pw fw s.

(** User events of the component. *)
Inductive Event :=
| SelectMode (m : GenerationMode)
| TypePrompt (p : string)
| UploadImage (file : option (option string))
| ClickGenerate (pw : ProWorld) (fw : FlashWorld)
| OpenImage (i : nat)
| CloseViewer
| ClickUpscale (pw : ProWorld).

Definition step (s : AppState) (e : Event) : AppState * list Call :=
  match e with
  | SelectMode m => (setMode m s, [])
  | TypePrompt p => (setPrompt p s, [])
  | UploadImage file => handleImageUpload file s
  | ClickGenerate pw fw => clickGenerate pw fw s
  | OpenImage i =>
      match generatedImages s !! i with
      | Some img => (setViewImage (Some img) s, [])
      | None => (s, [])
      end
  | CloseViewer => (setViewImage None s, [])
  | ClickUpscale pw => clickUpscale pw s
  end.

(** A session: the state after the events, and every call issued. *)
Fixpoint run (s : AppState) (events : list Event) : AppState * list Call :=
  match events with
  | [] => (s, [])
  | e :: rest =>
      let '(s1, calls1) := step s e in
      let '(s2, calls2) := run s1 rest in
      (s2, calls1 ++ calls2)
  end.

(** The artifact an edit batch produces for the angle at position [i] of the
    table, if the call for that angle is fulfilled. *)
Definition artifactOfAngle (fw : FlashWorld) (prompt : string) (i : nat)
    : option ImageResult :=
  match angles !! i with
  | Some angle =>
      match editPromise fw prompt i angle with
      | Fulfilled v => Some v
      | Rejected _ => None
      end
  | None => None
  end.

(** Invariant of the slots of [allSettled]: a slot is only ever filled with
    the outcome of its own promise. *)
Definition slotsSound {A} (promises : list A) (slots : list (option A)) : Prop :=
  forall i x, slots !! i = Some (Some x) -> promises !! i = Some x.

(** The outcomes of the seven promises of a batch, in the order of the angle
    table, and the artifacts of the fulfilled ones. *)
Definition editResults (fw : FlashWorld) (prompt : string) : list (Settled ImageResult) :=
  imap (editPromise fw prompt) angles.

Definition batchArtifacts (fw : FlashWorld) (prompt : string) : list ImageResult :=
  fulfilledValues (editResults fw prompt).

(** Every call of the batch settles: the completion order is a permutation
    of the positions of the angle table. *)
Definition settlesAll (fw : FlashWorld) : Prop :=
  Permutation (flash_order fw) (seq 0 (length angles)).

(** ** Identifiers *)

Definition storedIds (s : AppState) : list string :=
  map img_id (generatedImages s).

(** The tokens an event draws are fresh: the UUIDs of a batch are pairwise
    distinct, and the clock reading an upscale turns into an id is not the id
    of a stored artifact. *)
Definition freshIds (s : AppState) (e : Event) : Prop :=
  match e with
  | ClickGenerate _ fw => NoDup (map (flash_uuid fw) (seq 0 7))
  | ClickUpscale pw => toString (pro_now_id pw) ∉ storedIds s
  | _ => True
  end.

Fixpoint freshSession (s : AppState) (events : list Event) : Prop :=
  match events with
  | [] => True
  | e :: rest => freshIds s e /\ freshSession (step s e).1 rest
  end.

(** ** Sample inputs *)

(** The component after a source image has been uploaded. *)
Definition editState : AppState :=
  (handleImageUpload (Some (Some "data:image/png;base64,SRC")) initialState).1.

(** The component in generate mode with a prompt typed in. *)
Definition generateState : AppState :=
  setPrompt "a cat" (setMode GENERATE initialState).

Definition sampleUuid (i : nat) : string :=
  "3b241101-e2bb-4255-8caf-4136c566a96" +:+ toString (Z.of_nat i).

(** A batch in which the calls for "Side Profile" and "Dutch Angle" are
    rejected and the other five are fulfilled; the calls settle out of
    order. *)
Definition partialFlash : FlashWorld :=
  {| flash_reply := fun i =>
       match i with
       | 2 | 5 => Rejected (Error "The model is overloaded.")
       | _ => Fulfilled "data:image/png;base64,EDIT"
       end;
     flash_uuid := sampleUuid;
     flash_now := fun i => (1700000000000 + Z.of_nat i)%Z;
     flash_order := [3; 0; 6; 1; 5; 2; 4] |}.

(** A batch in which every call is rejected with the given reason. *)
Definition failingFlash (reason : Reason) : FlashWorld :=
  {| flash_reply := fun _ => Rejected reason;
     flash_uuid := sampleUuid;
     flash_now := fun i => (1700000000000 + Z.of_nat i)%Z;
     flash_order := [6; 5; 4; 3; 2; 1; 0] |}.

(** A fulfilled and a rejected round of the generate or upscale call. *)
Definition fulfilledPro (now : Z) : ProWorld :=
  {| pro_reply := Fulfilled "data:image/png;base64,PRO";
     pro_now_id := now; pro_now_ts := now |}.

Definition rejectedPro (msg : string) : ProWorld :=
  {| pro_reply := Rejected (Error msg);
     pro_now_id := 1700000000000; pro_now_ts := 1700000000000 |}.

(** An artifact as an edit batch stores it. *)
Definition flashArtifact : ImageResult :=
  {| img_id := sampleUuid 0;
     img_data := "data:image/png;base64,EDIT";
     img_mimeType := "image/png";
     img_prompt := "Low Angle: Keep the subject but change camera to viewed from a low camera angle, looking up, dramatic perspective";
     img_model := "gemini-2.5-flash-image";
     img_timestamp := 1700000000000 |}.

(** A session in which a generated image is opened and upscaled, the clock
    reading the same millisecond at both completions. *)
Definition sameMillisecondSession : list Event :=
  [ SelectMode GENERATE;
    TypePrompt "a cat";
    ClickGenerate (fulfilledPro 1700000000000) partialFlash;
    OpenImage 0;
    ClickUpscale (fulfilledPro 1700000000000) ].

(** ** The rest of the component *)

Definition setSelectedSize (v : ImageSize) (s : AppState) : AppState :=
  mkAppState (mode s) (prompt s) (inputImage s) (generatedImages s)
    (isLoading s) (error s) v (selectedRatio s) (viewImage s)
    (isUpscaling s) (zoomLevel s) (hasApiKey s).

Definition setSelectedRatio (v : AspectRatio) (s : AppState) : AppState :=
  mkAppState (mode s) (prompt s) (inputImage s) (generatedImages s)
    (isLoading s) (error s) (selectedSize s) v (viewImage s)
    (isUpscaling s) (zoomLevel s) (hasApiKey s).

(** The effect run on mount, [checkApiKeySelection().then(setHasApiKey)],
    with the answer of the host. *)
Definition onMount (selected : bool) (s : AppState) : AppState :=
  setHasApiKey selected s.

(** [handleApiKeySelect]; [opened] tells whether [openApiKeySelection()] was
    fulfilled.  A rejection is only logged. *)
Definition handleApiKeySelect (opened : bool) (s : AppState) : AppState :=
  if opened then setHasApiKey true s else s.

(** [toggleZoom]: [setZoomLevel(prev => prev === 1 ? 2.5 : 1)]. *)
Definition toggleZoom (s : AppState) : AppState :=
  setZoomLevel (match zoomLevel s with Zoom1 => Zoom2_5 | Zoom2_5 => Zoom1 end) s.

(** [!hasApiKey && <ApiKeyModal onSelect={handleApiKeySelect} />]. *)
Definition apiKeyModalShown (s : AppState) : bool := negb (hasApiKey s).

(** The badge on a tile of the grid:
    [img.model.includes('flash') ? 'Flash' : 'Pro']. *)
Definition badge (img : ImageResult) : string :=
  if includes (img_model img) "flash" then "Flash" else "Pro".

(** The [download] attribute of the link in the viewer. *)
Definition downloadName (img : ImageResult) : string :=
  "gemini-image-" +:+ img_id img +:+ ".png".

(** Everything that can happen to the component: the events above, the
    answer of the host on mount, the key selection offered by the modal, the
    two selects (the size select is rendered in generate mode only) and a
    click on the image in the viewer. *)
Inductive Action :=
| Ui (e : Event)
| Mount (selected : bool)
| SelectKey (opened : bool)
| SelectSize (size : ImageSize)
| SelectRatio (ratio : AspectRatio)
| ClickViewer.

Definition act (s : AppState) (a : Action) : AppState * list Call :=
  match a with
  | Ui e => step s e
  | Mount selected => (onMount selected s, [])
  | SelectKey opened =>
      if apiKeyModalShown s then (handleApiKeySelect opened s, []) else (s, [])
  | SelectSize size =>
      match mode s with
      | GENERATE => (setSelectedSize size s, [])
      | EDIT_ANGLES => (s, [])
      end
  | SelectRatio ratio => (setSelectedRatio ratio s, [])
  | ClickViewer =>
      match viewImage s with
      | Some _ => (toggleZoom s, [])
      | None => (s, [])
      end
  end.

Fixpoint session (s : AppState) (actions : list Action) : AppState * list Call :=
  match actions with
  | [] => (s, [])
  | a :: rest =>
      let '(s1, calls1) := act s a in
      let '(s2, calls2) := session s1 rest in
      (s2, calls1 ++ calls2)
  end.

(** What every call to the service carries: a generate call a prompt, an
    edit call a source image and an instruction, an upscale call the size
    4K. *)
Definition wellFormed (c : Call) : Prop :=
  match c with
  | CallGenerate prompt _ _ => prompt <> ""
  | CallEdit image instruction _ => image <> "" /\ instruction <> ""
  | CallUpscale _ _ size => size = SIZE_4K
  end.

(** The artifacts the component builds: PNG, from one of three models. *)
Definition builtHere (img : ImageResult) : Prop :=
  img_mimeType img = "image/png" /\
  (img_model img = "gemini-2.5-flash-image" \/
   img_model img = "gemini-3-pro-image-preview" \/
   img_model img = "gemini-3-pro-image-preview (Upscaled)").

Definition artifactsBuiltHere (s : AppState) : Prop :=
  Forall builtHere (generatedImages s) /\
  (forall v, viewImage s = Some v -> builtHere v).

(** A batch in which the call for "Close Up" never settles. *)
Definition stuckFlash : FlashWorld :=
  {| flash_reply := fun _ => Fulfilled "data:image/png;base64,EDIT";
     flash_uuid := sampleUuid;
     flash_now := fun i => (1700000000000 + Z.of_nat i)%Z;
     flash_order := [0; 1; 2; 3; 5; 6] |}.

(** Freshness of the tokens drawn along a session of actions. *)
Definition freshAction (s : AppState) (a : Action) : Prop :=
  match a with
  | Ui e => freshIds s e
  | _ => True
  end.

Fixpoint freshActions (s : AppState) (actions : list Action) : Prop :=
  match actions with
  | [] => True
  | a :: rest => freshAction s a /\ freshActions (act s a).1 rest
  end.

(** A session in which an uploaded image is edited and one of the results
    is opened and upscaled. *)
Definition editAndUpscaleSession : list Action :=
  [ Ui (UploadImage (Some (Some "data:image/png;base64,SRC")));
    Ui (ClickGenerate (fulfilledPro 0) partialFlash);
    Ui (OpenImage 0);
    ClickViewer;
    Ui (ClickUpscale (fulfilledPro 1700000000123)) ].

(** A batch in which every call is rejected, the first for overload and the
    other six for a missing entitlement. *)
Definition mixedFailingFlash : FlashWorld :=
  {| flash_reply := fun i =>
       match i with
       | 0 => Rejected (Error "The model is overloaded.")
       | _ => Rejected (Error "Requested entity was not found.")
       end;
     flash_uuid := sampleUuid;
     flash_now := fun i => (1700000000000 + Z.of_nat i)%Z;
     flash_order := [1; 2; 3; 4; 5; 6; 0] |}.

(** * Properties *)

(** ** Substring search *)

Lemma prefix_append n s :
  String.prefix n s = true <-> exists b, s = n +:+ b.
Proof.
  revert s. induction n as [|c n IH]; intros s.
  - split; [intros _; exists s; reflexivity | intros _; destruct s; reflexivity].
  - destruct s as [|d s]; simpl String.prefix.
    + split; [discriminate | intros [b Hb]; discriminate Hb].
    + destruct (Ascii.ascii_dec c d) as [->|Hne].
      * rewrite IH. split; intros [b Hb]; exists b.
        -- rewrite Hb. reflexivity.
        -- injection Hb as ->. reflexivity.
      * split; [discriminate|].
        intros [b Hb]. injection Hb as Hcd _. congruence.
Qed.

(** [includes] finds exactly the occurrences of the needle. *)
Lemma includes_spec s needle :
  includes s needle = true <-> exists a b, s = a +:+ needle +:+ b.
Proof.
  induction s as [|c s IH]; cbn [includes].
  - destruct (String.prefix needle "") eqn:Hp.
    + split; [intros _ | reflexivity].
      apply prefix_append in Hp as [b Hb]. exists "", b. exact Hb.
    + split; [discriminate|]. intros (a & b & Hab).
      destruct a as [|x a]; [|discriminate Hab].
      rewrite <- Hp. apply prefix_append. exists b. exact Hab.
  - destruct (String.prefix needle (String c s)) eqn:Hp.
    + split; [intros _ | reflexivity].
      apply prefix_append in Hp as [b Hb]. exists "", b. exact Hb.
    + rewrite IH. split.
      * intros (a & b & ->). exists (String c a), b. reflexivity.
      * intros (a & b & Hab). destruct a as [|x a].
        -- exfalso. assert (Ht : String.prefix needle (String c s) = true)
             by (apply prefix_append; exists b; exact Hab).
           congruence.
        -- injection Hab as _ ->. exists a, b. reflexivity.
Qed.

(** ** Promise.allSettled *)

Section AllSettled.
Context {A : Type}.
Implicit Types (promises : list A) (slots : list (option A)) (order : list nat).

Lemma length_settle promises slots i :
  length (settle promises slots i) = length slots.
Proof.
  unfold settle. destruct (promises !! i); [apply length_insert | reflexivity].
Qed.

Lemma length_fold_settle promises order slots :
  length (fold_left (settle promises) order slots) = length slots.
Proof.
  revert slots. induction order as [|j order IH]; intros slots; simpl.
  - reflexivity.
  - rewrite IH. apply length_settle.
Qed.

Lemma settle_sound promises slots j :
  slotsSound promises slots -> slotsSound promises (settle promises slots j).
Proof.
  intros Hs i x. unfold settle.
  destruct (promises !! j) as [r|] eqn:Hj; [|apply Hs].
  destruct (decide (j = i)) as [->|Hne].
  - destruct (decide (i < length slots)) as [Hlt|Hge].
    + rewrite list_lookup_insert_eq by exact Hlt. congruence.
    + rewrite list_insert_ge by lia. apply Hs.
  - rewrite list_lookup_insert_ne by exact Hne. apply Hs.
Qed.

Lemma fold_settle_sound promises order slots :
  slotsSound promises slots ->
  slotsSound promises (fold_left (settle promises) order slots).
Proof.
  revert slots. induction order as [|j order IH]; intros slots Hs; simpl.
  - exact Hs.
  - apply IH, settle_sound, Hs.
Qed.

(** Later settlements leave a filled slot as it is. *)
Lemma fold_settle_keeps promises order slots i x :
  promises !! i = Some x ->
  slots !! i = Some (Some x) ->
  fold_left (settle promises) order slots !! i = Some (Some x).
Proof.
  intros Hp. revert slots. induction order as [|j order IH]; intros slots Hi; simpl.
  - exact Hi.
  - apply IH. unfold settle.
    destruct (promises !! j) as [r|] eqn:Hj; [|exact Hi].
    destruct (decide (j = i)) as [->|Hne].
    + rewrite list_lookup_insert_eq by (eapply lookup_lt_Some; exact Hi).
      congruence.
    + rewrite list_lookup_insert_ne by exact Hne. exact Hi.
Qed.

Lemma fold_settle_fills promises order slots i x :
  length slots = length promises ->
  promises !! i = Some x ->
  i ∈ order ->
  fold_left (settle promises) order slots !! i = Some (Some x).
Proof.
  intros Hlen Hp. revert slots Hlen.
  induction order as [|j order IH]; intros slots Hlen Hin.
  - inversion Hin.
  - simpl. destruct (decide (j = i)) as [->|Hne].
    + apply fold_settle_keeps; [exact Hp|].
      unfold settle. rewrite Hp. apply list_lookup_insert_eq.
      rewrite Hlen. eapply lookup_lt_Some; exact Hp.
    + apply IH.
      * rewrite length_settle. exact Hlen.
      * apply elem_of_cons in Hin as [->|Hin]; [congruence | exact Hin].
Qed.

(** Once every promise has settled, the result lists the outcomes in the
    order of the promises, whatever the order of settlement. *)
Lemma allSettled_complete order promises :
  (forall i, i < length promises -> i ∈ order) ->
  allSettled order promises = Some promises.
Proof.
  intros Hall. unfold allSettled. apply mapM_Some.
  apply Forall2_same_length_lookup. split.
  - rewrite length_fold_settle. apply length_replicate.
  - intros i slot x Hslot Hx.
    rewrite (fold_settle_fills promises order _ i x) in Hslot.
    + congruence.
    + apply length_replicate.
    + exact Hx.
    + apply Hall. eapply lookup_lt_Some; exact Hx.
Qed.

(** Whenever a result is available, it is the list of outcomes in the
    order of the promises. *)
Lemma allSettled_Some order promises results :
  allSettled order promises = Some results -> results = promises.
Proof.
  unfold allSettled. intros H. apply mapM_Some in H.
  apply Forall2_same_length_lookup in H as [Hlen H].
  rewrite length_fold_settle, length_replicate in Hlen.
  assert (Hsound : slotsSound promises
            (fold_left (settle promises) order (replicate (length promises) None))).
  { apply fold_settle_sound. intros i x Hi.
    apply lookup_replicate in Hi as [Hi _]. discriminate. }
  apply list_eq. intros i.
  destruct (results !! i) as [r|] eqn:Hr.
  - assert (Hlt : i < length promises).
    { rewrite Hlen. eapply lookup_lt_Some; exact Hr. }
    rewrite <- (length_replicate (length promises) (@None A)) in Hlt.
    rewrite <- (length_fold_settle promises order) in Hlt.
    apply lookup_lt_is_Some in Hlt as [slot Hslot].
    pose proof (H i slot r Hslot Hr) as Heq. simpl in Heq. subst slot.
    symmetry. apply Hsound. exact Hslot.
  - apply lookup_ge_None in Hr. symmetry. apply lookup_ge_None. lia.
Qed.

Lemma allSettled_permutation order promises :
  Permutation order (seq 0 (length promises)) ->
  allSettled order promises = Some promises.
Proof.
  intros Hperm. apply allSettled_complete. intros i Hi.
  rewrite Hperm. apply elem_of_seq. lia.
Qed.
End AllSettled.

(** ** Filtering the fulfilled outcomes *)

Section Fulfilled.
Context {A B : Type}.

Lemma length_fulfilledValues (results : list (Settled B)) :
  length (fulfilledValues results) <= length results.
Proof.
  induction results as [|[v|r] rest IH]; simpl; lia.
Qed.

Lemma fulfilledValues_nil (results : list (Settled B)) :
  fulfilledValues results = [] <-> Forall (fun r => isRejected r = true) results.
Proof.
  induction results as [|[v|r] rest IH]; simpl.
  - split; [constructor | reflexivity].
  - split; [discriminate | intros H; inversion H; discriminate].
  - rewrite IH. split; [intros H; constructor; [reflexivity | exact H]
                       | intros H; inversion H; assumption].
Qed.

Lemma fulfilledValues_omap (results : list (Settled B)) :
  fulfilledValues results = omap valueOf results.
Proof.
  induction results as [|[v|r] rest IH]; simpl; [reflexivity | | exact IH].
  f_equal. exact IH.
Qed.

Lemma omap_fmap_compose {X Y Z} (g : X -> Y) (h : Y -> option Z) (l : list X) :
  omap h (g <$> l) = omap (fun x => h (g x)) l.
Proof.
  induction l as [|x l IH]; csimpl; [reflexivity|].
  rewrite IH. reflexivity.
Qed.

Lemma imap_seq_omap (f : nat -> A -> Settled B) (l : list A) :
  omap valueOf (imap f l)
  = omap (fun i => match l !! i with
                   | Some a => valueOf (f i a)
                   | None => None
                   end) (seq 0 (length l)).
Proof.
  revert f. induction l as [|a l IH]; intros f; [reflexivity|].
  cbn [imap length seq]. rewrite <- fmap_S_seq.
  change (omap valueOf (f 0 a :: imap (f ∘ S) l))
    with (match valueOf (f 0 a) with
          | Some v => v :: omap valueOf (imap (f ∘ S) l)
          | None => omap valueOf (imap (f ∘ S) l)
          end).
  rewrite IH. cbn [omap list_omap lookup list_lookup].
  rewrite omap_fmap_compose.
  destruct (valueOf (f 0 a)); reflexivity.
Qed.
End Fulfilled.

(** ** The edit batch *)

Lemma length_angles : length angles = 7.
Proof. reflexivity. Qed.

Lemma artifactOfAngle_Some fw p i a :
  artifactOfAngle fw p i = Some a <->
  exists angle resultBase64,
    angles !! i = Some angle /\ flash_reply fw i = Fulfilled resultBase64 /\
    a = {| img_id := flash_uuid fw i;
           img_data := resultBase64;
           img_mimeType := "image/png";
           img_prompt := name angle +:+ ": " +:+ fullPrompt p angle;
           img_model := "gemini-2.5-flash-image";
           img_timestamp := flash_now fw i |}.
Proof.
  unfold artifactOfAngle, editPromise. split.
  - destruct (angles !! i) as [angle|]; [|discriminate].
    destruct (flash_reply fw i) as [d|r]; [|discriminate].
    intros [= <-]. exists angle, d. auto.
  - intros (angle & d & -> & -> & ->). reflexivity.
Qed.

Lemma artifactOfAngle_lt fw p i a :
  artifactOfAngle fw p i = Some a -> i < 7.
Proof.
  intros H. apply artifactOfAngle_Some in H as (angle & _ & Hi & _).
  apply lookup_lt_Some in Hi. exact Hi.
Qed.

Lemma artifactOfAngle_fulfilled fw p i :
  i < 7 -> isFulfilled (flash_reply fw i) = true ->
  exists a, artifactOfAngle fw p i = Some a.
Proof.
  intros Hi Hf. rewrite <- length_angles in Hi.
  apply lookup_lt_is_Some in Hi as [angle Hangle].
  unfold artifactOfAngle, editPromise. rewrite Hangle.
  destruct (flash_reply fw i); [eauto | discriminate].
Qed.

Lemma artifactOfAngle_rejected fw p i :
  isRejected (flash_reply fw i) = true -> artifactOfAngle fw p i = None.
Proof.
  unfold artifactOfAngle, editPromise. intros Hr.
  destruct (angles !! i); [|reflexivity].
  destruct (flash_reply fw i); [discriminate | reflexivity].
Qed.

(** The artifacts of a batch are those of the fulfilled calls, taken in the
    order of the angle table. *)
Lemma batchArtifacts_angles fw p :
  batchArtifacts fw p = omap (artifactOfAngle fw p) (seq 0 7).
Proof.
  unfold batchArtifacts, editResults.
  rewrite fulfilledValues_omap, imap_seq_omap. reflexivity.
Qed.

Lemma batchArtifacts_nil fw p :
  batchArtifacts fw p = [] <->
  forall i, i < 7 -> isRejected (flash_reply fw i) = true.
Proof.
  rewrite batchArtifacts_angles. split.
  - intros Hnil i Hi.
    destruct (flash_reply fw i) as [d|r] eqn:Hrep; [|reflexivity].
    destruct (artifactOfAngle_fulfilled fw p i Hi) as [a Ha].
    { rewrite Hrep. reflexivity. }
    assert (Hin : a ∈ omap (artifactOfAngle fw p) (seq 0 7)).
    { apply list_elem_of_omap. exists i. split; [apply elem_of_seq; lia | exact Ha]. }
    rewrite Hnil in Hin. inversion Hin.
  - intros Hall.
    destruct (omap (artifactOfAngle fw p) (seq 0 7)) as [|a rest] eqn:Hl; [reflexivity|].
    assert (Hin : a ∈ omap (artifactOfAngle fw p) (seq 0 7)).
    { rewrite Hl. apply list_elem_of_here. }
    apply list_elem_of_omap in Hin as (i & Hi & Ha).
    apply elem_of_seq in Hi.
    rewrite artifactOfAngle_rejected in Ha; [discriminate | apply Hall; lia].
Qed.

Lemma length_batchArtifacts fw p : length (batchArtifacts fw p) <= 7.
Proof.
  unfold batchArtifacts. etransitivity; [apply length_fulfilledValues|].
  unfold editResults. rewrite length_imap. reflexivity.
Qed.

Lemma firstRejectedMessage_batch fw p r0 :
  flash_reply fw 0 = Rejected r0 ->
  firstRejectedMessage (editResults fw p) = message r0.
Proof.
  intros H0. unfold editResults, angles. cbn [imap].
  unfold editPromise at 1. rewrite H0. reflexivity.
Qed.

(** What [handleGenerate] does in edit mode once the seven calls have
    settled. *)
Lemma handleGenerate_edit pw fw s c rest :
  mode s = EDIT_ANGLES ->
  inputImage s = Some (String c rest) ->
  settlesAll fw ->
  handleGenerate pw fw s =
  (let s0 := setIsLoading true (setError None s) in
   let rejected := firstRejectedMessage (editResults fw (prompt s)) in
   if (length (batchArtifacts fw (prompt s)) =? 0)%nat
   then setIsLoading false
          (catchGenerate (Error (or_else rejected "Failed to generate any variations."))
             (if opt_includes rejected ENTITY_NOT_FOUND
              then setHasApiKey false s0 else s0))
   else setIsLoading false (setGeneratedImages (batchArtifacts fw (prompt s)) s0),
   map (fun angle => CallEdit (String c rest) (fullPrompt (prompt s) angle) (selectedRatio s))
       angles).
Proof.
  intros Hmode Himg Hall. unfold handleGenerate. rewrite Hmode, Himg.
  rewrite allSettled_permutation
    by (rewrite length_imap; exact Hall).
  unfold batchArtifacts, editResults. cbv zeta.
  destruct (length _ =? 0)%nat; reflexivity.
Qed.

(** Seven calls dispatched, five fulfilled and two rejected: the store ends
    with the five artifacts in the order of the angle table, and no error is
    surfaced. *)
Example five_of_seven :
  let s' := (handleGenerate (fulfilledPro 0) partialFlash editState).1 in
  map img_id (generatedImages s')
  = [sampleUuid 0; sampleUuid 1; sampleUuid 3; sampleUuid 4; sampleUuid 6] /\
  error s' = None.
Proof. split; reflexivity. Qed.

(** Positions in the result of [omap] over increasing indices follow the
    indices. *)
Lemma omap_seq_order {B} (f : nat -> option B) n i j a b :
  i < j -> j < n -> f i = Some a -> f j = Some b ->
  exists p q, p < q /\ omap f (seq 0 n) !! p = Some a
                    /\ omap f (seq 0 n) !! q = Some b.
Proof.
  intros Hij Hjn Hi Hj.
  assert (Hsplit : seq 0 n
            = seq 0 i ++ i :: seq (S i) (j - S i) ++ j :: seq (S j) (n - S j)).
  { replace n with (i + S ((j - S i) + S (n - S j))) at 1 by lia.
    rewrite List.seq_app. cbn [seq]. f_equal. simpl. f_equal.
    rewrite List.seq_app. cbn [seq]. f_equal.
    replace (S i + (j - S i)) with j by lia. reflexivity. }
  rewrite Hsplit.
  set (l1 := omap f (seq 0 i)).
  set (l2 := omap f (seq (S i) (j - S i))).
  set (l3 := omap f (seq (S j) (n - S j))).
  assert (Heq : omap f (seq 0 i ++ i :: seq (S i) (j - S i) ++ j :: seq (S j) (n - S j))
                = l1 ++ a :: l2 ++ b :: l3).
  { rewrite omap_app. csimpl. rewrite Hi. rewrite omap_app. csimpl. rewrite Hj.
    reflexivity. }
  rewrite Heq.
  exists (length l1), (length (l1 ++ a :: l2)). split.
  - rewrite length_app. simpl. lia.
  - split.
    + apply list_lookup_middle. reflexivity.
    + replace (l1 ++ a :: l2 ++ b :: l3) with ((l1 ++ a :: l2) ++ b :: l3)
        by (rewrite <- app_assoc; reflexivity).
      apply list_lookup_middle. reflexivity.
Qed.

(** ** The error path *)

Lemma truthy_or_else m d : truthy d = true -> truthy (or_else m d) = true.
Proof.
  intros Hd. unfold or_else. destruct m as [x|]; [|exact Hd].
  destruct (truthy x) eqn:Hx; [exact Hx | exact Hd].
Qed.

Lemma or_else_truthy x d : truthy x = true -> or_else (Some x) d = x.
Proof. intros Hx. unfold or_else. rewrite Hx. reflexivity. Qed.

(** A thrown [Error] whose message is not empty reaches the error slot as
    it is. *)
Lemma error_catchGenerate_Error msg s :
  truthy msg = true ->
  error (setIsLoading false (catchGenerate (Error msg) s)) = Some msg.
Proof.
  intros Hmsg. unfold catchGenerate. cbn [message Error].
  rewrite (or_else_truthy _ _ Hmsg).
  destruct (_ || _); reflexivity.
Qed.

Lemma error_catchGenerate err s :
  error (setIsLoading false (catchGenerate err s))
  = Some (or_else (message err) "An error occurred during generation").
Proof. unfold catchGenerate. destruct (_ || _); reflexivity. Qed.

Lemma generatedImages_catchGenerate err s :
  generatedImages (setIsLoading false (catchGenerate err s)) = generatedImages s.
Proof. unfold catchGenerate. destruct (_ || _); reflexivity. Qed.

Lemma hasApiKey_catchGenerate err s :
  hasApiKey (setIsLoading false (catchGenerate err s))
  = hasApiKey s
    && negb (opt_includes (message err) ENTITY_NOT_FOUND
             || opt_includes (message err) "API key").
Proof.
  unfold catchGenerate.
  destruct (_ || _); cbn; [rewrite andb_false_r | rewrite andb_true_r]; reflexivity.
Qed.

(** C1 (amended): in every edit-by-angle batch seven edit calls are
    dispatched; whenever at least one of them is fulfilled no error is raised
    and the store receives exactly the artifacts of the fulfilled calls,
    between 1 and 7 of them; an error is raised if and only if all seven
    calls are rejected, and it then carries the message of the first rejected
    call when that message is non-empty and the text "Failed to generate any
    variations." when the message is empty or missing, the store being left
    as it was. *)
Theorem edit_batch_partial_success pw fw s image :
  mode s = EDIT_ANGLES ->
  inputImage s = Some image ->
  truthy image = true ->
  settlesAll fw ->
  let s' := (handleGenerate pw fw s).1 in
  let calls := (handleGenerate pw fw s).2 in
  length calls = 7 /\
  ((exists i, i < 7 /\ isFulfilled (flash_reply fw i) = true) ->
     error s' = None /\
     generatedImages s' = omap (artifactOfAngle fw (prompt s)) (seq 0 7) /\
     1 <= length (generatedImages s') <= 7) /\
  (error s' <> None <-> forall i, i < 7 -> isRejected (flash_reply fw i) = true) /\
  ((forall i, i < 7 -> isRejected (flash_reply fw i) = true) ->
     forall r0, flash_reply fw 0 = Rejected r0 ->
     error s' = Some (or_else (message r0) "Failed to generate any variations.") /\
     generatedImages s' = generatedImages s).
Proof.
  intros Hmode Himg Htruthy Hall.
  destruct image as [|c rest]; [discriminate|].
  rewrite (handleGenerate_edit pw fw s c rest Hmode Himg Hall). cbv zeta.
  cbn [fst snd].
  pose proof (batchArtifacts_nil fw (prompt s)) as Hnil.
  pose proof (length_batchArtifacts fw (prompt s)) as Hlen.
  split; [reflexivity|].
  destruct (batchArtifacts fw (prompt s)) as [|a arts] eqn:Harts.
  - (* every call rejected *)
    pose proof (proj1 Hnil eq_refl) as Hrej.
    cbn [length Nat.eqb].
    rewrite error_catchGenerate_Error by (apply truthy_or_else; reflexivity).
    rewrite generatedImages_catchGenerate.
    split; [|split].
    + intros (i & Hi & Hful). specialize (Hrej i Hi).
      destruct (flash_reply fw i); discriminate.
    + split; [intros _; exact Hrej | intros _; discriminate].
    + intros _ r0 H0.
      rewrite (firstRejectedMessage_batch fw (prompt s) r0 H0).
      split; [reflexivity|].
      destruct (opt_includes _ _); reflexivity.
  - (* at least one call fulfilled *)
    cbn [length Nat.eqb].
    assert (Hsome : ~ forall i, i < 7 -> isRejected (flash_reply fw i) = true).
    { intros Hrej. apply Hnil in Hrej. discriminate. }
    split; [|split].
    + intros _. split; [reflexivity|]. split.
      * cbn. rewrite <- Harts. apply batchArtifacts_angles.
      * cbn. cbn in Hlen. lia.
    + cbn. split; [intros H; contradiction | intros H; contradiction].
    + intros Hrej. contradiction.
Qed.

Lemma edit_batch_partial_success_witness :
  settlesAll partialFlash /\
  length (handleGenerate (fulfilledPro 0) partialFlash editState).2 = 7 /\
  error (handleGenerate (fulfilledPro 0) partialFlash editState).1 = None /\
  1 <= length (generatedImages (handleGenerate (fulfilledPro 0) partialFlash editState).1) <= 7.
Proof.
  assert (H : settlesAll partialFlash).
  { unfold settlesAll. apply (bool_decide_unpack _). vm_compute. exact I. }
  split; [exact H|].
  destruct (edit_batch_partial_success (fulfilledPro 0) partialFlash editState
              "data:image/png;base64,SRC" eq_refl eq_refl eq_refl H)
    as (Hcalls & Hsome & _).
  split; [exact Hcalls|].
  destruct Hsome as (Herr & _ & Hlen).
  - exists 0. split; [lia | reflexivity].
  - split; [exact Herr | exact Hlen].
Defined.

(** C1 (as stated) fails: when all seven calls are rejected with an empty
    message, the error raised does not carry the message of the first
    rejected call but the text "Failed to generate any variations.". *)
Lemma edit_batch_first_message_counterexample :
  ~ (forall pw fw s image r0 m,
       mode s = EDIT_ANGLES ->
       inputImage s = Some image ->
       truthy image = true ->
       settlesAll fw ->
       (forall i, i < 7 -> isRejected (flash_reply fw i) = true) ->
       flash_reply fw 0 = Rejected r0 ->
       message r0 = Some m ->
       error (handleGenerate pw fw s).1 = Some m).
Proof.
  intros H.
  specialize (H (fulfilledPro 0) (failingFlash (Error "")) editState
                "data:image/png;base64,SRC" (Error "") ""
                eq_refl eq_refl eq_refl).
  assert (Hall : settlesAll (failingFlash (Error ""))).
  { unfold settlesAll. apply (bool_decide_unpack _). vm_compute. exact I. }
  specialize (H Hall (fun _ _ => eq_refl) eq_refl eq_refl).
  vm_compute in H. discriminate H.
Qed.

(** C2: in every edit-by-angle batch, whatever calls are fulfilled or
    rejected, the stored list follows the angle table: when the artifacts of
    the angles at positions i < j of the table are both produced, the one for
    i is stored before the one for j; and the outcome of the batch is the same
    for every order in which the seven calls settle. *)
Theorem edit_batch_angle_order pw fw s image :
  mode s = EDIT_ANGLES ->
  inputImage s = Some image ->
  truthy image = true ->
  settlesAll fw ->
  let stored := generatedImages (handleGenerate pw fw s).1 in
  (forall i j a b,
     i < j ->
     artifactOfAngle fw (prompt s) i = Some a ->
     artifactOfAngle fw (prompt s) j = Some b ->
     exists p q, p < q /\ stored !! p = Some a /\ stored !! q = Some b) /\
  (forall order,
     Permutation order (seq 0 (length angles)) ->
     handleGenerate pw
       (mkFlashWorld (flash_reply fw) (flash_uuid fw) (flash_now fw) order) s
     = handleGenerate pw fw s).
Proof.
  intros Hmode Himg Htruthy Hall.
  destruct image as [|c rest]; [discriminate|].
  cbv zeta. split.
  - intros i j a b Hij Ha Hb.
    rewrite (handleGenerate_edit pw fw s c rest Hmode Himg Hall). cbv zeta.
    cbn [fst].
    destruct (batchArtifacts fw (prompt s)) as [|x arts] eqn:Harts.
    + pose proof (proj1 (batchArtifacts_nil fw (prompt s)) Harts i
                    (artifactOfAngle_lt _ _ _ _ Ha)) as Hrej.
      rewrite (artifactOfAngle_rejected fw (prompt s) i Hrej) in Ha.
      discriminate.
    + cbn [length Nat.eqb setIsLoading setGeneratedImages updGeneratedImages
           setError generatedImages].
      rewrite <- Harts, batchArtifacts_angles.
      apply (omap_seq_order _ 7 i j a b Hij); [| exact Ha | exact Hb].
      eapply artifactOfAngle_lt; exact Hb.
  - intros order Horder.
    rewrite (handleGenerate_edit pw fw s c rest Hmode Himg Hall).
    rewrite (handleGenerate_edit pw
               (mkFlashWorld (flash_reply fw) (flash_uuid fw) (flash_now fw) order)
               s c rest Hmode Himg Horder).
    reflexivity.
Qed.

Lemma edit_batch_angle_order_witness :
  settlesAll partialFlash /\
  exists p q, p < q /\
    map img_id (generatedImages (handleGenerate (fulfilledPro 0) partialFlash editState).1) !! p
      = Some (sampleUuid 1) /\
    map img_id (generatedImages (handleGenerate (fulfilledPro 0) partialFlash editState).1) !! q
      = Some (sampleUuid 4).
Proof.
  assert (H : settlesAll partialFlash).
  { unfold settlesAll. apply (bool_decide_unpack _). vm_compute. exact I. }
  split; [exact H|].
  destruct (edit_batch_angle_order (fulfilledPro 0) partialFlash editState
              "data:image/png;base64,SRC" eq_refl eq_refl eq_refl H)
    as (Hord & _).
  destruct (Hord 1 4 _ _ ltac:(lia) eq_refl eq_refl) as (p & q & Hpq & Hp & Hq).
  exists p, q. split; [exact Hpq|].
  rewrite !list_lookup_fmap, Hp, Hq. split; reflexivity.
Defined.

(** ** The authorized flag *)

Lemma opt_includes_or_else m d x :
  truthy x = true -> includes d x = false ->
  opt_includes m x = includes (or_else m d) x.
Proof.
  intros Hx Hd. destruct m as [[|c t]|]; cbn [opt_includes or_else truthy].
  - rewrite Hd. destruct x; [discriminate | reflexivity].
  - reflexivity.
  - symmetry. exact Hd.
Qed.

(** C3 (amended): whenever [handleGenerate] surfaces a failure message, be
    it from the generate call or from an exhausted edit batch, the authorized
    flag becomes false if the message contains the entitlement-failure
    substring "Requested entity was not found" or the substring "API key",
    and keeps its value otherwise; whenever the upscale call fails, the flag
    becomes false if the surfaced message contains the entitlement-failure
    substring, and keeps its value otherwise. *)
Theorem authorized_flag_transition :
  (forall pw fw s m,
     error (handleGenerate pw fw s).1 = Some m ->
     hasApiKey (handleGenerate pw fw s).1
     = hasApiKey s && negb (includes m ENTITY_NOT_FOUND || includes m "API key")) /\
  (forall pw imageToUpscale s r,
     hasApiKey s = true ->
     pro_reply pw = Rejected r ->
     exists m,
       error (handleUpscale pw imageToUpscale s).1 = Some m /\
       m = or_else (message r) "Failed to upscale" /\
       hasApiKey (handleUpscale pw imageToUpscale s).1
       = negb (includes m ENTITY_NOT_FOUND)).
Proof.
  split.
  - intros pw fw s m. unfold handleGenerate.
    destruct (mode s).
    + destruct (hasApiKey s) eqn:Hkey; cbn [negb]; [|discriminate].
      destruct (truthy (prompt s)); cbn [negb].
      * destruct (pro_reply pw) as [base64|err]; cbn [fst]; [discriminate|].
        rewrite error_catchGenerate, hasApiKey_catchGenerate. intros [= <-].
        cbn [hasApiKey setIsLoading setError]. rewrite Hkey.
        rewrite <- !opt_includes_or_else by reflexivity. reflexivity.
      * cbn [fst]. rewrite error_catchGenerate, hasApiKey_catchGenerate.
        intros [= <-]. cbn [hasApiKey setIsLoading setError]. rewrite Hkey.
        reflexivity.
    + assert (Hval : forall s1,
        hasApiKey s1 = hasApiKey s ->
        error (setIsLoading false
                 (catchGenerate (Error "Please upload an image first.") s1)) = Some m ->
        hasApiKey (setIsLoading false
                 (catchGenerate (Error "Please upload an image first.") s1))
        = hasApiKey s && negb (includes m ENTITY_NOT_FOUND || includes m "API key")).
      { intros s1 Hs1. rewrite error_catchGenerate, hasApiKey_catchGenerate.
        intros [= <-]. rewrite Hs1. reflexivity. }
      destruct (inputImage s) as [[|c rest]|]; cbn [fst];
        [apply Hval; reflexivity | | apply Hval; reflexivity].
      destruct (allSettled _ _) as [results|]; cbn [fst]; [|discriminate].
      destruct (length (fulfilledValues results) =? 0)%nat; cbn [fst]; [|discriminate].
      set (rejected := firstRejectedMessage results).
      set (d := "Failed to generate any variations.").
      rewrite error_catchGenerate_Error by (apply truthy_or_else; reflexivity).
      rewrite hasApiKey_catchGenerate. intros [= <-].
      cbn [message Error opt_includes].
      rewrite (opt_includes_or_else rejected d ENTITY_NOT_FOUND) by reflexivity.
      destruct (includes (or_else rejected d) ENTITY_NOT_FOUND);
        destruct (includes (or_else rejected d) "API key");
        cbn; rewrite ?andb_false_r, ?andb_true_r; reflexivity.
  - intros pw imageToUpscale s r Hkey Hreply.
    unfold handleUpscale. rewrite Hkey, Hreply. cbn [negb fst].
    exists (or_else (message r) "Failed to upscale").
    unfold catchUpscale.
    rewrite (opt_includes_or_else (message r) "Failed to upscale" ENTITY_NOT_FOUND)
      by reflexivity.
    destruct (includes _ ENTITY_NOT_FOUND); cbn; [auto|].
    rewrite Hkey. auto.
Qed.

Lemma authorized_flag_transition_witness :
  error (handleGenerate (rejectedPro "Requested entity was not found.")
           partialFlash generateState).1
    = Some "Requested entity was not found." /\
  hasApiKey (handleGenerate (rejectedPro "Requested entity was not found.")
               partialFlash generateState).1 = false.
Proof.
  split; [reflexivity|].
  rewrite (proj1 authorized_flag_transition
             (rejectedPro "Requested entity was not found.") partialFlash
             generateState "Requested entity was not found." eq_refl).
  reflexivity.
Defined.

(** C3 (as stated) fails: a generate call rejected with a message that
    mentions "API key" but not the entitlement-failure substring still turns
    the authorized flag off. *)
Lemma authorized_flag_api_key_counterexample :
  ~ (forall pw fw s m,
       error (handleGenerate pw fw s).1 = Some m ->
       includes m ENTITY_NOT_FOUND = false ->
       hasApiKey (handleGenerate pw fw s).1 = hasApiKey s).
Proof.
  intros H.
  specialize (H (rejectedPro "API key not valid. Please pass a valid API key.")
                partialFlash generateState
                "API key not valid. Please pass a valid API key."
                eq_refl eq_refl).
  vm_compute in H. discriminate H.
Qed.

(** ** Upscaling *)

(** What [handleUpscale] does when the call is fulfilled. *)
Lemma handleUpscale_fulfilled pw imageToUpscale s upscaledBase64 :
  hasApiKey s = true ->
  pro_reply pw = Fulfilled upscaledBase64 ->
  handleUpscale pw imageToUpscale s =
  (let upscaledResult :=
     {| img_id := toString (pro_now_id pw);
        img_data := upscaledBase64;
        img_mimeType := "image/png";
        img_prompt := img_prompt imageToUpscale;
        img_model := "gemini-3-pro-image-preview (Upscaled)";
        img_timestamp := pro_now_ts pw |} in
   setIsUpscaling false
     (updGeneratedImages (cons upscaledResult)
        (setViewImage (Some upscaledResult) (setIsUpscaling true s))),
   [CallUpscale (img_data imageToUpscale) (img_prompt imageToUpscale) SIZE_4K]).
Proof.
  intros Hkey Hreply. unfold handleUpscale. rewrite Hkey, Hreply. reflexivity.
Qed.

(** C4 (amended): whenever upscale succeeds, the new artifact's model
    identifier is the fixed text "gemini-3-pro-image-preview (Upscaled)",
    which is the original's identifier with " (Upscaled)" appended when the
    original was produced by the generate model; the new artifact is set as
    the currently viewed image and is prepended to the store. *)
Theorem upscale_success pw imageToUpscale s upscaledBase64 :
  hasApiKey s = true ->
  pro_reply pw = Fulfilled upscaledBase64 ->
  let s' := (handleUpscale pw imageToUpscale s).1 in
  exists upscaledResult,
    img_model upscaledResult = "gemini-3-pro-image-preview (Upscaled)" /\
    (img_model imageToUpscale = "gemini-3-pro-image-preview" ->
     img_model upscaledResult = img_model imageToUpscale +:+ " (Upscaled)") /\
    img_data upscaledResult = upscaledBase64 /\
    img_prompt upscaledResult = img_prompt imageToUpscale /\
    viewImage s' = Some upscaledResult /\
    generatedImages s' = upscaledResult :: generatedImages s.
Proof.
  intros Hkey Hreply.
  rewrite (handleUpscale_fulfilled pw imageToUpscale s upscaledBase64 Hkey Hreply).
  cbv zeta.
  exists {| img_id := toString (pro_now_id pw);
            img_data := upscaledBase64;
            img_mimeType := "image/png";
            img_prompt := img_prompt imageToUpscale;
            img_model := "gemini-3-pro-image-preview (Upscaled)";
            img_timestamp := pro_now_ts pw |}.
  cbn.
  split; [reflexivity|]. split; [intros ->; reflexivity|].
  split; [reflexivity|]. split; [reflexivity|]. split; reflexivity.
Qed.

Lemma upscale_success_witness :
  hasApiKey editState = true /\
  exists upscaledResult,
    viewImage (handleUpscale (fulfilledPro 1700000000000) flashArtifact editState).1
      = Some upscaledResult /\
    generatedImages (handleUpscale (fulfilledPro 1700000000000) flashArtifact editState).1
      = upscaledResult :: generatedImages editState.
Proof.
  split; [reflexivity|].
  destruct (upscale_success (fulfilledPro 1700000000000) flashArtifact editState
              "data:image/png;base64,PRO" eq_refl eq_refl)
    as (up & _ & _ & _ & _ & Hview & Hstore).
  exists up. split; [exact Hview | exact Hstore].
Defined.

(** C4 (as stated) fails: upscaling an artifact of an edit batch, whose model
    identifier is "gemini-2.5-flash-image", yields an artifact whose model
    identifier does not extend that identifier by any marker. *)
Lemma upscale_model_counterexample :
  ~ (forall pw imageToUpscale s upscaledBase64,
       hasApiKey s = true ->
       pro_reply pw = Fulfilled upscaledBase64 ->
       exists upscaledResult marker,
         viewImage (handleUpscale pw imageToUpscale s).1 = Some upscaledResult /\
         img_model upscaledResult = img_model imageToUpscale +:+ marker).
Proof.
  intros H.
  destruct (H (fulfilledPro 1700000000000) flashArtifact editState
              "data:image/png;base64,PRO" eq_refl eq_refl)
    as (up & marker & Hview & Hmodel).
  vm_compute in Hview. injection Hview as <-.
  cbn in Hmodel. discriminate Hmodel.
Qed.

(** ** The result store *)

(** C5: after a generate call or an edit batch completes, the store holds
    exactly the new result list, whatever it held before, so its size is the
    size of that list; after an upscale completes, the store has one artifact
    more than before and retains every prior artifact. *)
Theorem result_store_replace_and_prepend :
  (forall pw fw s old base64,
     mode s = GENERATE ->
     hasApiKey s = true ->
     truthy (prompt s) = true ->
     pro_reply pw = Fulfilled base64 ->
     generatedImages (handleGenerate pw fw (setGeneratedImages old s)).1
     = [ {| img_id := toString (pro_now_id pw);
            img_data := base64;
            img_mimeType := "image/png";
            img_prompt := prompt s;
            img_model := "gemini-3-pro-image-preview";
            img_timestamp := pro_now_ts pw |} ]) /\
  (forall pw fw s old image,
     mode s = EDIT_ANGLES ->
     inputImage s = Some image ->
     truthy image = true ->
     settlesAll fw ->
     (exists i, i < 7 /\ isFulfilled (flash_reply fw i) = true) ->
     generatedImages (handleGenerate pw fw (setGeneratedImages old s)).1
     = batchArtifacts fw (prompt s) /\
     length (generatedImages (handleGenerate pw fw (setGeneratedImages old s)).1)
     = length (batchArtifacts fw (prompt s))) /\
  (forall pw imageToUpscale s upscaledBase64,
     hasApiKey s = true ->
     pro_reply pw = Fulfilled upscaledBase64 ->
     length (generatedImages (handleUpscale pw imageToUpscale s).1)
     = S (length (generatedImages s)) /\
     (forall a, a ∈ generatedImages s ->
                a ∈ generatedImages (handleUpscale pw imageToUpscale s).1) /\
     exists upscaledResult,
       generatedImages (handleUpscale pw imageToUpscale s).1
       = upscaledResult :: generatedImages s).
Proof.
  split; [|split].
  - intros pw fw s old base64 Hmode Hkey Hprompt Hreply.
    unfold handleGenerate. cbn [mode hasApiKey prompt setGeneratedImages updGeneratedImages].
    rewrite Hmode, Hkey, Hprompt, Hreply. reflexivity.
  - intros pw fw s old image Hmode Himg Htruthy Hall (i & Hi & Hful).
    destruct image as [|c rest]; [discriminate|].
    rewrite (handleGenerate_edit pw fw (setGeneratedImages old s) c rest Hmode Himg Hall).
    cbv zeta. cbn [fst prompt setGeneratedImages updGeneratedImages].
    destruct (batchArtifacts fw (prompt s)) as [|a arts] eqn:Harts.
    + pose proof (proj1 (batchArtifacts_nil fw (prompt s)) Harts i Hi) as Hrej.
      destruct (flash_reply fw i); discriminate.
    + split; reflexivity.
  - intros pw imageToUpscale s upscaledBase64 Hkey Hreply.
    rewrite (handleUpscale_fulfilled pw imageToUpscale s upscaledBase64 Hkey Hreply).
    cbv zeta. cbn. split; [reflexivity|]. split.
    + intros a Ha. apply list_elem_of_further. exact Ha.
    + eexists. reflexivity.
Qed.

Lemma result_store_replace_and_prepend_witness :
  length (generatedImages
            (handleGenerate (fulfilledPro 1700000000000) partialFlash
               (setGeneratedImages [flashArtifact; flashArtifact] generateState)).1) = 1 /\
  length (generatedImages
            (handleUpscale (fulfilledPro 1700000000000) flashArtifact
               (setGeneratedImages [flashArtifact] editState)).1) = 2.
Proof.
  destruct result_store_replace_and_prepend as (Hgen & _ & Hup).
  split.
  - rewrite (Hgen (fulfilledPro 1700000000000) partialFlash generateState
               [flashArtifact; flashArtifact] "data:image/png;base64,PRO"
               eq_refl eq_refl eq_refl eq_refl).
    reflexivity.
  - destruct (Hup (fulfilledPro 1700000000000) flashArtifact
                (setGeneratedImages [flashArtifact] editState)
                "data:image/png;base64,PRO" eq_refl eq_refl) as (Hlen & _).
    exact Hlen.
Defined.

(** ** Validation *)

(** C6: a generate-mode submission with an empty prompt, the authorized flag
    being true, fails with the validation message, issues no external call
    and leaves the store unchanged; an edit-mode submission with no source
    image fails with its validation message before any call is issued. *)
Theorem validation_errors pw fw s :
  (mode s = GENERATE ->
   hasApiKey s = true ->
   prompt s = "" ->
   error (handleGenerate pw fw s).1 = Some "Please enter a prompt description." /\
   (handleGenerate pw fw s).2 = [] /\
   generatedImages (handleGenerate pw fw s).1 = generatedImages s) /\
  (mode s = EDIT_ANGLES ->
   inputImage s = None ->
   error (handleGenerate pw fw s).1 = Some "Please upload an image first." /\
   (handleGenerate pw fw s).2 = [] /\
   generatedImages (handleGenerate pw fw s).1 = generatedImages s).
Proof.
  split.
  - intros Hmode Hkey Hprompt. unfold handleGenerate.
    rewrite Hmode, Hkey, Hprompt. cbn. auto.
  - intros Hmode Himg. unfold handleGenerate.
    rewrite Hmode, Himg. cbn. auto.
Qed.

Lemma validation_errors_witness :
  (handleGenerate (fulfilledPro 0) partialFlash (setMode GENERATE initialState)).2 = [] /\
  (handleGenerate (fulfilledPro 0) partialFlash initialState).2 = [].
Proof.
  split.
  - exact (proj1 (proj2 (proj1 (validation_errors (fulfilledPro 0) partialFlash
                                  (setMode GENERATE initialState))
                           eq_refl eq_refl eq_refl))).
  - exact (proj1 (proj2 (proj2 (validation_errors (fulfilledPro 0) partialFlash
                                  initialState)
                           eq_refl eq_refl))).
Defined.

(** ** Prompts of the edit batch *)

(** C8 (amended): in every edit-by-angle batch, the prompt sent to the edit
    capability for an angle is "<instruction>, <suffix>" when the user
    supplied a non-empty instruction and "Keep the subject but change camera
    to <suffix>" (with a capital K) when they did not, and the artifact
    stored for that angle carries that prompt prefixed by the angle's name
    and ": ". *)
Theorem edit_batch_prompts pw fw s image i angle sent :
  mode s = EDIT_ANGLES ->
  inputImage s = Some image ->
  truthy image = true ->
  settlesAll fw ->
  angles !! i = Some angle ->
  (prompt s <> "" /\ sent = prompt s +:+ ", " +:+ promptSuffix angle) \/
  (prompt s = "" /\
   sent = "Keep the subject but change camera to " +:+ promptSuffix angle) ->
  (handleGenerate pw fw s).2 !! i = Some (CallEdit image sent (selectedRatio s)) /\
  (forall resultBase64,
     flash_reply fw i = Fulfilled resultBase64 ->
     exists a,
       a ∈ generatedImages (handleGenerate pw fw s).1 /\
       img_id a = flash_uuid fw i /\
       img_data a = resultBase64 /\
       img_prompt a = name angle +:+ ": " +:+ sent).
Proof.
  intros Hmode Himg Htruthy Hall Hangle Hsent.
  assert (Hfull : fullPrompt (prompt s) angle = sent).
  { unfold fullPrompt.
    destruct Hsent as [[Hne ->]|[He ->]].
    - destruct (prompt s); [contradiction | reflexivity].
    - rewrite He. reflexivity. }
  destruct image as [|c rest]; [discriminate|].
  rewrite (handleGenerate_edit pw fw s c rest Hmode Himg Hall). cbv zeta.
  cbn [fst snd]. split.
  - rewrite list_lookup_fmap, Hangle. cbn. rewrite Hfull. reflexivity.
  - intros resultBase64 Hreply.
    assert (Ha : artifactOfAngle fw (prompt s) i
                 = Some {| img_id := flash_uuid fw i;
                           img_data := resultBase64;
                           img_mimeType := "image/png";
                           img_prompt := name angle +:+ ": " +:+ sent;
                           img_model := "gemini-2.5-flash-image";
                           img_timestamp := flash_now fw i |}).
    { apply artifactOfAngle_Some. exists angle, resultBase64.
      rewrite Hfull. auto. }
    exists {| img_id := flash_uuid fw i;
              img_data := resultBase64;
              img_mimeType := "image/png";
              img_prompt := name angle +:+ ": " +:+ sent;
              img_model := "gemini-2.5-flash-image";
              img_timestamp := flash_now fw i |}.
    split; [|cbn; split; [reflexivity | split; reflexivity]].
    assert (Hin : {| img_id := flash_uuid fw i;
                     img_data := resultBase64;
                     img_mimeType := "image/png";
                     img_prompt := name angle +:+ ": " +:+ sent;
                     img_model := "gemini-2.5-flash-image";
                     img_timestamp := flash_now fw i |}
                  ∈ batchArtifacts fw (prompt s)).
    { rewrite batchArtifacts_angles. apply list_elem_of_omap.
      exists i. split; [|exact Ha].
      apply elem_of_seq. apply lookup_lt_Some in Hangle.
      rewrite length_angles in Hangle. lia. }
    destruct (batchArtifacts fw (prompt s)) as [|x arts]; [inversion Hin|].
    exact Hin.
Qed.

Lemma edit_batch_prompts_witness :
  settlesAll partialFlash /\
  (handleGenerate (fulfilledPro 0) partialFlash (setPrompt "at night" editState)).2 !! 3
  = Some (CallEdit "data:image/png;base64,SRC"
            "at night, wide angle shot, showing surrounding context, environmental view"
            R1_1).
Proof.
  assert (H : settlesAll partialFlash).
  { unfold settlesAll. apply (bool_decide_unpack _). vm_compute. exact I. }
  split; [exact H|].
  refine (proj1 (edit_batch_prompts (fulfilledPro 0) partialFlash
                   (setPrompt "at night" editState) "data:image/png;base64,SRC" 3
                   (mkAngle "Wide Shot"
                      "wide angle shot, showing surrounding context, environmental view")
                   _ eq_refl eq_refl eq_refl H eq_refl _)).
  left. split; [discriminate | reflexivity].
Defined.

(** C8 (as stated) fails: with no instruction, the prompt sent for an angle
    is not "keep the subject but change camera to <suffix>" with a small k. *)
Lemma edit_batch_template_counterexample :
  ~ (forall pw fw s image i angle,
       mode s = EDIT_ANGLES ->
       inputImage s = Some image ->
       truthy image = true ->
       settlesAll fw ->
       angles !! i = Some angle ->
       prompt s = "" ->
       (handleGenerate pw fw s).2 !! i
       = Some (CallEdit image
                 ("keep the subject but change camera to " +:+ promptSuffix angle)
                 (selectedRatio s))).
Proof.
  intros H.
  assert (Hall : settlesAll partialFlash).
  { unfold settlesAll. apply (bool_decide_unpack _). vm_compute. exact I. }
  specialize (H (fulfilledPro 0) partialFlash editState "data:image/png;base64,SRC" 0
                (mkAngle "Low Angle"
                   "viewed from a low camera angle, looking up, dramatic perspective")
                eq_refl eq_refl eq_refl Hall eq_refl eq_refl).
  vm_compute in H. discriminate H.
Qed.

(** ** The guard on upscaling *)

(** C9: while the viewed artifact's model identifier carries the "Upscaled"
    marker, the upscale control does not run the operation: no external call
    is issued and the whole state, store and viewer included, is unchanged. *)
Theorem upscale_guard pw s v :
  viewImage s = Some v ->
  includes (img_model v) "Upscaled" = true ->
  step s (ClickUpscale pw) = (s, []).
Proof.
  intros Hview Hmarker. cbn [step]. unfold clickUpscale, upscaleDisabled.
  rewrite Hview, Hmarker, orb_true_r. reflexivity.
Qed.

Lemma upscale_guard_witness :
  step (run initialState sameMillisecondSession).1
       (ClickUpscale (fulfilledPro 1700000000001))
  = ((run initialState sameMillisecondSession).1, []).
Proof.
  exact (upscale_guard (fulfilledPro 1700000000001)
           (run initialState sameMillisecondSession).1
           {| img_id := "1700000000000";
              img_data := "data:image/png;base64,PRO";
              img_mimeType := "image/png";
              img_prompt := "a cat";
              img_model := "gemini-3-pro-image-preview (Upscaled)";
              img_timestamp := 1700000000000 |}
           eq_refl eq_refl).
Defined.

(** ** Uploading a source image *)

(** C10: uploading a source image empties the store, whatever it held,
    issues no external call, and sets the uploaded image as the source of
    edit mode. *)
Theorem upload_resets_store s dataUrl :
  generatedImages (handleImageUpload (Some (Some dataUrl)) s).1 = [] /\
  (handleImageUpload (Some (Some dataUrl)) s).2 = [] /\
  inputImage (handleImageUpload (Some (Some dataUrl)) s).1 = Some dataUrl.
Proof. cbn. auto. Qed.

(** ** Identifiers in the store *)

(** Where the store of [handleGenerate] comes from: it is left as it was,
    or holds the one generated artifact, or holds the artifacts of the
    batch. *)
Lemma generatedImages_handleGenerate pw fw s :
  generatedImages (handleGenerate pw fw s).1 = generatedImages s \/
  (exists a, generatedImages (handleGenerate pw fw s).1 = [a]) \/
  generatedImages (handleGenerate pw fw s).1 = batchArtifacts fw (prompt s).
Proof.
  unfold handleGenerate. destruct (mode s).
  - destruct (hasApiKey s); cbn [negb]; [|left; reflexivity].
    destruct (truthy (prompt s)); cbn [negb fst].
    + destruct (pro_reply pw) as [base64|err]; cbn [fst].
      * right. left. eexists. reflexivity.
      * left. rewrite generatedImages_catchGenerate. reflexivity.
    + left. rewrite generatedImages_catchGenerate. reflexivity.
  - destruct (inputImage s) as [[|c rest]|]; cbn [fst];
      [left; rewrite generatedImages_catchGenerate; reflexivity | |
       left; rewrite generatedImages_catchGenerate; reflexivity].
    destruct (allSettled _ _) as [results|] eqn:Hsettled; cbn [fst];
      [|left; reflexivity].
    apply allSettled_Some in Hsettled. subst results.
    destruct (length _ =? 0)%nat; cbn [fst].
    + left. rewrite generatedImages_catchGenerate.
      destruct (opt_includes _ _); reflexivity.
    + right. right. reflexivity.
Qed.

Lemma NoDup_omap_ids {X} (f : X -> option ImageResult) (g : X -> string) l :
  (forall x a, f x = Some a -> img_id a = g x) ->
  NoDup (map g l) -> NoDup (map img_id (omap f l)).
Proof.
  intros Hfg. induction l as [|x l IH]; csimpl; intros Hnd.
  - constructor.
  - apply NoDup_cons in Hnd as [Hx Hnd].
    destruct (f x) as [a|] eqn:Hfx; [|exact (IH Hnd)].
    csimpl. apply NoDup_cons. split; [|exact (IH Hnd)].
    rewrite (Hfg x a Hfx). intros Hin. apply Hx.
    apply list_elem_of_fmap in Hin as (b & Hgb & Hb).
    apply list_elem_of_omap in Hb as (y & Hy & Hfy).
    rewrite Hgb, (Hfg y b Hfy). apply list_elem_of_fmap. exists y. auto.
Qed.

(** What is missing for the ids to stay distinct: as long as every event
    draws fresh tokens, every step keeps them pairwise distinct. *)
Lemma storedIds_distinct_step s e :
  NoDup (storedIds s) -> freshIds s e -> NoDup (storedIds (step s e).1).
Proof.
  intros Hnd Hfresh. destruct e as [m|p|file|pw fw|i| |pw]; cbn [step].
  - exact Hnd.
  - exact Hnd.
  - destruct file as [result|]; [constructor | exact Hnd].
  - unfold clickGenerate. destruct (generateDisabled s); [exact Hnd|].
    unfold storedIds.
    destruct (generatedImages_handleGenerate pw fw s) as [-> | [[a ->] | ->]].
    + exact Hnd.
    + apply NoDup_singleton.
    + rewrite batchArtifacts_angles.
      apply (NoDup_omap_ids _ (flash_uuid fw)); [|exact Hfresh].
      intros x a Ha. apply artifactOfAngle_Some in Ha as (? & ? & _ & _ & ->).
      reflexivity.
  - destruct (generatedImages s !! i); exact Hnd.
  - exact Hnd.
  - unfold clickUpscale. destruct (viewImage s) as [v|]; [|exact Hnd].
    destruct (upscaleDisabled s v); [exact Hnd|].
    unfold handleUpscale. destruct (hasApiKey s); cbn [negb]; [|exact Hnd].
    destruct (pro_reply pw) as [upscaledBase64|err]; cbn [fst].
    + unfold storedIds. cbn. apply NoDup_cons. split; [exact Hfresh | exact Hnd].
    + unfold catchUpscale. destruct (opt_includes _ _); exact Hnd.
Qed.

Lemma storedIds_distinct_run events : forall s,
  NoDup (storedIds s) -> freshSession s events ->
  NoDup (storedIds (run s events).1).
Proof.
  induction events as [|e rest IH]; intros s Hnd Hfresh; [exact Hnd|].
  destruct Hfresh as [He Hrest]. cbn [run].
  pose proof (storedIds_distinct_step s e Hnd He) as Hstep.
  destruct (step s e) as [s1 calls1] eqn:Hs1.
  specialize (IH s1 Hstep Hrest).
  destruct (run s1 rest) as [s2 calls2]. exact IH.
Qed.

(** C7 (fails on the code): a generated image is opened and upscaled, and
    the clock reads the same millisecond when the generate call and the
    upscale call complete; the store then holds two artifacts with the same
    id. *)
Theorem same_millisecond_duplicate_ids :
  map img_id (generatedImages (run initialState sameMillisecondSession).1)
  = ["1700000000000"; "1700000000000"] /\
  ~ NoDup (map img_id (generatedImages (run initialState sameMillisecondSession).1)).
Proof.
  split; [reflexivity|].
  intros H. vm_compute in H. apply NoDup_cons in H as [Hnotin _].
  apply Hnotin. apply list_elem_of_here.
Qed.

(** * Further properties of the component *)

(** ** Waiting for the batch *)

Section Pending.
Context {A : Type}.
Implicit Types (promises : list A) (slots : list (option A)) (order : list nat).

Lemma fold_settle_untouched promises order slots i :
  i ∉ order ->
  fold_left (settle promises) order slots !! i = slots !! i.
Proof.
  revert slots. induction order as [|j order IH]; intros slots Hi; simpl.
  - reflexivity.
  - apply not_elem_of_cons in Hi as [Hne Hi].
    rewrite (IH _ Hi). unfold settle.
    destruct (promises !! j); [|reflexivity].
    apply list_lookup_insert_ne. congruence.
Qed.

(** As long as one promise has not settled there is no result. *)
Lemma allSettled_pending order promises i :
  i < length promises -> i ∉ order -> allSettled order promises = None.
Proof.
  intros Hlt Hi. unfold allSettled.
  destruct (mapM _ _) as [results|] eqn:Hm; [|reflexivity].
  apply mapM_Some_1 in Hm.
  assert (Hslot : fold_left (settle promises) order
                    (replicate (length promises) None) !! i = Some None).
  { rewrite (fold_settle_untouched promises order _ i Hi).
    apply lookup_replicate_2. exact Hlt. }
  destruct (Forall2_lookup_l _ _ _ _ _ Hm Hslot) as (y & _ & Hy).
  discriminate Hy.
Qed.
End Pending.

Lemma handleGenerate_pending pw fw s c rest i :
  mode s = EDIT_ANGLES ->
  inputImage s = Some (String c rest) ->
  i < 7 -> i ∉ flash_order fw ->
  handleGenerate pw fw s =
  (setIsLoading true (setError None s),
   map (fun angle => CallEdit (String c rest) (fullPrompt (prompt s) angle) (selectedRatio s))
       angles).
Proof.
  intros Hmode Himg Hi Hnot. unfold handleGenerate. rewrite Hmode, Himg.
  rewrite (allSettled_pending (flash_order fw) _ i); [reflexivity | | exact Hnot].
  rewrite length_imap. exact Hi.
Qed.


(** X2: while one of the seven calls of a batch has not settled, whatever
    the other six have answered, nothing is shown: the seven calls have been
    issued, the store, the error slot and the authorized flag are as the
    handler found them (the error slot cleared), and the generate control
    does nothing. *)
Theorem batch_waits_for_every_call pw fw s image i :
  mode s = EDIT_ANGLES ->
  inputImage s = Some image ->
  truthy image = true ->
  i < 7 ->
  i ∉ flash_order fw ->
  length (handleGenerate pw fw s).2 = 7 /\
  generatedImages (handleGenerate pw fw s).1 = generatedImages s /\
  error (handleGenerate pw fw s).1 = None /\
  hasApiKey (handleGenerate pw fw s).1 = hasApiKey s /\
  (forall pw' fw',
     clickGenerate pw' fw' (handleGenerate pw fw s).1
     = ((handleGenerate pw fw s).1, [])).
Proof.
  intros Hmode Himg Htruthy Hi Hnot.
  destruct image as [|c rest]; [discriminate|].
  rewrite (handleGenerate_pending pw fw s c rest i Hmode Himg Hi Hnot).
  cbn [fst snd]. repeat split.
Qed.

Lemma batch_waits_for_every_call_witness :
  (4 ∉ flash_order stuckFlash) /\
  generatedImages (handleGenerate (fulfilledPro 0) stuckFlash
                     (setGeneratedImages [flashArtifact] editState)).1
  = [flashArtifact].
Proof.
  assert (H : 4 ∉ flash_order stuckFlash).
  { apply (bool_decide_unpack _). vm_compute. exact I. }
  split; [exact H|].
  refine (proj1 (proj2 (batch_waits_for_every_call (fulfilledPro 0) stuckFlash
                          (setGeneratedImages [flashArtifact] editState)
                          "data:image/png;base64,SRC" 4
                          eq_refl eq_refl eq_refl _ H))).
  lia.
Defined.

(** ** What the handlers leave alone *)

(** X3: [handleGenerate] never touches the mode, the prompt, the source
    image, the selected size and ratio, the viewed image, the upscaling flag
    or the zoom level, on any of its paths. *)
Theorem handleGenerate_frame pw fw s :
  let s' := (handleGenerate pw fw s).1 in
  mode s' = mode s /\ prompt s' = prompt s /\ inputImage s' = inputImage s /\
  selectedSize s' = selectedSize s /\ selectedRatio s' = selectedRatio s /\
  viewImage s' = viewImage s /\ isUpscaling s' = isUpscaling s /\
  zoomLevel s' = zoomLevel s.
Proof.
  destruct s as [m p img store loading err size ratio view upscaling zoom key].
  cbv zeta. unfold handleGenerate, catchGenerate.
  cbn [mode prompt inputImage hasApiKey selectedSize selectedRatio].
  destruct m.
  - destruct key; cbn [negb]; [|cbn; repeat split].
    destruct (truthy p); cbn [negb]; [|cbn; repeat split].
    destruct (pro_reply pw) as [base64|e]; [cbn; repeat split|].
    destruct (_ || _); cbn; repeat split.
  - destruct img as [[|c rest]|]; [cbn; repeat split | | cbn; repeat split].
    destruct (allSettled _ _) as [results|]; [|cbn; repeat split].
    destruct (length _ =? 0)%nat; [|cbn; repeat split].
    destruct (opt_includes (firstRejectedMessage results) ENTITY_NOT_FOUND);
      destruct (_ || _); cbn; repeat split.
Qed.

(** The calls of an edit batch are issued whether or not they settle. *)
Lemma handleGenerate_edit_calls pw fw s c rest :
  mode s = EDIT_ANGLES ->
  inputImage s = Some (String c rest) ->
  (handleGenerate pw fw s).2
  = map (fun angle => CallEdit (String c rest) (fullPrompt (prompt s) angle) (selectedRatio s))
        angles.
Proof.
  intros Hmode Himg. unfold handleGenerate. rewrite Hmode, Himg.
  destruct (allSettled _ _) as [results|]; [|reflexivity].
  destruct (length _ =? 0)%nat; reflexivity.
Qed.

Lemma setHasApiKey_same s : setHasApiKey (hasApiKey s) s = s.
Proof. destruct s. reflexivity. Qed.

(** ** The authorization gate *)

(** X4: while no key is selected the key dialog is shown, [handleUpscale]
    does nothing at all, and [handleGenerate] in generate mode issues no
    call, leaves the store alone and only clears the error slot; an edit
    batch is not gated: its seven calls are issued all the same. *)
Theorem missing_key_gate pw fw s imageToUpscale :
  hasApiKey s = false ->
  apiKeyModalShown s = true /\
  handleUpscale pw imageToUpscale s = (s, []) /\
  (mode s = GENERATE ->
   (handleGenerate pw fw s).2 = [] /\
   generatedImages (handleGenerate pw fw s).1 = generatedImages s /\
   error (handleGenerate pw fw s).1 = None /\
   hasApiKey (handleGenerate pw fw s).1 = false) /\
  (forall image,
     mode s = EDIT_ANGLES -> inputImage s = Some image -> truthy image = true ->
     length (handleGenerate pw fw s).2 = 7).
Proof.
  intros Hkey. split; [|split; [|split]].
  - unfold apiKeyModalShown. rewrite Hkey. reflexivity.
  - unfold handleUpscale. rewrite Hkey. cbn [negb].
    rewrite <- Hkey at 1. rewrite setHasApiKey_same. reflexivity.
  - intros Hmode. unfold handleGenerate. rewrite Hmode, Hkey. cbn.
    rewrite Hkey. auto.
  - intros image Hmode Himg Htruthy. destruct image as [|c rest]; [discriminate|].
    rewrite (handleGenerate_edit_calls pw fw s c rest Hmode Himg). reflexivity.
Qed.

Lemma missing_key_gate_witness :
  handleUpscale (fulfilledPro 0) flashArtifact (onMount false editState)
  = (onMount false editState, []) /\
  length (handleGenerate (fulfilledPro 0) partialFlash (onMount false editState)).2 = 7.
Proof.
  destruct (missing_key_gate (fulfilledPro 0) partialFlash (onMount false editState)
              flashArtifact eq_refl) as (_ & Hup & _ & Hedit).
  split; [exact Hup|].
  exact (Hedit "data:image/png;base64,SRC" eq_refl eq_refl eq_refl).
Defined.

(** X5: when a generate call is rejected with a message that contains the
    entitlement-failure substring, the key dialog comes up and, until a key
    is selected, neither a further generate nor an upscale reaches the
    service; a key selection that fails changes nothing, one that succeeds
    lets the next generate issue its call again. *)
Theorem entitlement_failure_then_reselect pw fw s r m :
  mode s = GENERATE ->
  hasApiKey s = true ->
  truthy (prompt s) = true ->
  pro_reply pw = Rejected r ->
  message r = Some m ->
  includes m ENTITY_NOT_FOUND = true ->
  let s1 := (handleGenerate pw fw s).1 in
  apiKeyModalShown s1 = true /\
  (forall pw' fw', (handleGenerate pw' fw' s1).2 = []) /\
  (forall pw' imageToUpscale, (handleUpscale pw' imageToUpscale s1).2 = []) /\
  handleApiKeySelect false s1 = s1 /\
  apiKeyModalShown (handleApiKeySelect true s1) = false /\
  (forall pw' fw',
     (handleGenerate pw' fw' (handleApiKeySelect true s1)).2
     = [CallGenerate (prompt s) (selectedSize s) (selectedRatio s)]).
Proof.
  intros Hmode Hkey Hprompt Hreply Hmsg Hincl.
  assert (Hs1 : (handleGenerate pw fw s).1
                = setIsLoading false
                    (setHasApiKey false
                       (setError (Some (or_else (Some m) "An error occurred during generation"))
                          (setIsLoading true (setError None s))))).
  { unfold handleGenerate. rewrite Hmode, Hkey, Hprompt, Hreply. cbn [negb fst].
    unfold catchGenerate. rewrite Hmsg. cbn [opt_includes]. rewrite Hincl.
    reflexivity. }
  cbv zeta. rewrite Hs1. clear Hs1.
  split; [reflexivity|]. split; [|split; [|split; [|split]]].
  - intros pw' fw'. unfold handleGenerate. cbn. rewrite Hmode. reflexivity.
  - intros pw' img. reflexivity.
  - reflexivity.
  - reflexivity.
  - intros pw' fw'. unfold handleGenerate. cbn. rewrite Hmode, Hprompt. cbn.
    destruct (pro_reply pw'); reflexivity.
Qed.

Lemma entitlement_failure_then_reselect_witness :
  (handleGenerate (fulfilledPro 0) partialFlash
     (handleGenerate (rejectedPro "Requested entity was not found.")
        partialFlash generateState).1).2 = [] /\
  (handleGenerate (fulfilledPro 0) partialFlash
     (handleApiKeySelect true
        (handleGenerate (rejectedPro "Requested entity was not found.")
           partialFlash generateState).1)).2
  = [CallGenerate "a cat" SIZE_1K R1_1].
Proof.
  destruct (entitlement_failure_then_reselect
              (rejectedPro "Requested entity was not found.") partialFlash
              generateState (Error "Requested entity was not found.")
              "Requested entity was not found."
              eq_refl eq_refl eq_refl eq_refl eq_refl eq_refl)
    as (_ & Hgen & _ & _ & _ & Hagain).
  split; [apply Hgen | apply Hagain].
Defined.

(** ** More on upscaling *)

(** X6: [handleUpscale] never touches the mode, the prompt, the source
    image, the loading flag or the selected size and ratio; when its call is
    fulfilled it leaves the error slot and the authorized flag as they were,
    so an earlier error message stays on display; when its call is rejected
    it leaves the store, the viewed image and the zoom level as they were,
    and in both cases exactly one call went out, for the size 4K. *)
Theorem handleUpscale_frame pw imageToUpscale s :
  (let s' := (handleUpscale pw imageToUpscale s).1 in
   mode s' = mode s /\ prompt s' = prompt s /\ inputImage s' = inputImage s /\
   isLoading s' = isLoading s /\ selectedSize s' = selectedSize s /\
   selectedRatio s' = selectedRatio s) /\
  (forall upscaledBase64,
     hasApiKey s = true -> pro_reply pw = Fulfilled upscaledBase64 ->
     error (handleUpscale pw imageToUpscale s).1 = error s /\
     hasApiKey (handleUpscale pw imageToUpscale s).1 = true /\
     isUpscaling (handleUpscale pw imageToUpscale s).1 = false /\
     (handleUpscale pw imageToUpscale s).2
     = [CallUpscale (img_data imageToUpscale) (img_prompt imageToUpscale) SIZE_4K]) /\
  (forall r,
     hasApiKey s = true -> pro_reply pw = Rejected r ->
     generatedImages (handleUpscale pw imageToUpscale s).1 = generatedImages s /\
     viewImage (handleUpscale pw imageToUpscale s).1 = viewImage s /\
     zoomLevel (handleUpscale pw imageToUpscale s).1 = zoomLevel s /\
     isUpscaling (handleUpscale pw imageToUpscale s).1 = false /\
     (handleUpscale pw imageToUpscale s).2
     = [CallUpscale (img_data imageToUpscale) (img_prompt imageToUpscale) SIZE_4K]).
Proof.
  split; [|split].
  - cbv zeta. unfold handleUpscale, catchUpscale.
    destruct (negb (hasApiKey s)); [cbn; repeat split|].
    destruct (pro_reply pw) as [b|r]; [cbn; repeat split|].
    destruct (opt_includes _ _); cbn; repeat split.
  - intros b Hkey Hreply.
    rewrite (handleUpscale_fulfilled pw imageToUpscale s b Hkey Hreply).
    cbn. rewrite Hkey. repeat split.
  - intros r Hkey Hreply. unfold handleUpscale, catchUpscale.
    rewrite Hkey, Hreply. cbn [negb].
    destruct (opt_includes _ _); cbn; repeat split.
Qed.

Lemma handleUpscale_frame_witness :
  error (handleUpscale (fulfilledPro 0) flashArtifact
           (setError (Some "The model is overloaded.") editState)).1
  = Some "The model is overloaded.".
Proof.
  exact (proj1 (proj1 (proj2 (handleUpscale_frame (fulfilledPro 0) flashArtifact
                                (setError (Some "The model is overloaded.") editState)))
                  "data:image/png;base64,PRO" eq_refl eq_refl)).
Defined.

(** X7: once the upscale control has run and its call was fulfilled, the
    viewer shows the upscaled artifact and the control is disabled for it:
    clicking it again changes nothing and issues no call. *)
Theorem upscaled_image_is_not_upscaled_again pw pw' s v upscaledBase64 :
  viewImage s = Some v ->
  upscaleDisabled s v = false ->
  hasApiKey s = true ->
  pro_reply pw = Fulfilled upscaledBase64 ->
  (step s (ClickUpscale pw)).2
  = [CallUpscale (img_data v) (img_prompt v) SIZE_4K] /\
  step (step s (ClickUpscale pw)).1 (ClickUpscale pw')
  = ((step s (ClickUpscale pw)).1, []).
Proof.
  intros Hview Hguard Hkey Hreply. cbn [step]. unfold clickUpscale at 1 3 4.
  rewrite Hview, Hguard.
  rewrite (handleUpscale_fulfilled pw v s upscaledBase64 Hkey Hreply).
  cbv zeta. cbn [fst snd]. split; [reflexivity|].
  unfold clickUpscale, upscaleDisabled. cbn. reflexivity.
Qed.

Lemma upscaled_image_is_not_upscaled_again_witness :
  step (step (setViewImage (Some flashArtifact) editState)
          (ClickUpscale (fulfilledPro 1700000000000))).1
       (ClickUpscale (fulfilledPro 1700000000001))
  = ((step (setViewImage (Some flashArtifact) editState)
        (ClickUpscale (fulfilledPro 1700000000000))).1, []).
Proof.
  exact (proj2 (upscaled_image_is_not_upscaled_again
                  (fulfilledPro 1700000000000) (fulfilledPro 1700000000001)
                  (setViewImage (Some flashArtifact) editState) flashArtifact
                  "data:image/png;base64,PRO" eq_refl eq_refl eq_refl eq_refl)).
Defined.

(** ** The generate control *)

(** X8: whenever the generate control is enabled, running [handleGenerate]
    reaches the service unless the key is missing in generate mode: it issues
    the one generate call with the prompt, size and ratio of the form, or the
    seven edit calls on the source image; the two validation errors cannot
    be reached through the control. *)
Theorem enabled_generate_reaches_the_service pw fw s :
  generateDisabled s = false ->
  (mode s = GENERATE /\ hasApiKey s = false /\ (handleGenerate pw fw s).2 = []) \/
  (mode s = GENERATE /\ hasApiKey s = true /\
   (handleGenerate pw fw s).2
   = [CallGenerate (prompt s) (selectedSize s) (selectedRatio s)]) \/
  (mode s = EDIT_ANGLES /\
   exists image,
     inputImage s = Some image /\
     (handleGenerate pw fw s).2
     = map (fun angle => CallEdit image (fullPrompt (prompt s) angle) (selectedRatio s))
           angles).
Proof.
  unfold generateDisabled. intros Hen.
  apply orb_false_iff in Hen as [_ Hen].
  destruct (mode s) eqn:Hmode.
  - apply negb_false_iff in Hen.
    destruct (hasApiKey s) eqn:Hkey.
    + right. left. split; [reflexivity|]. split; [reflexivity|].
      unfold handleGenerate. rewrite Hmode, Hkey, Hen. cbn [negb].
      destruct (pro_reply pw); reflexivity.
    + left. split; [reflexivity|]. split; [reflexivity|].
      unfold handleGenerate. rewrite Hmode, Hkey. reflexivity.
  - right. right. split; [reflexivity|].
    destruct (inputImage s) as [[|c rest]|] eqn:Himg; try discriminate.
    exists (String c rest). split; [reflexivity|].
    apply handleGenerate_edit_calls; assumption.
Qed.

Lemma enabled_generate_reaches_the_service_witness :
  generateDisabled generateState = false /\
  (handleGenerate (fulfilledPro 0) partialFlash generateState).2
  = [CallGenerate "a cat" SIZE_1K R1_1].
Proof.
  split; [reflexivity|].
  destruct (enabled_generate_reaches_the_service (fulfilledPro 0) partialFlash
              generateState eq_refl) as [(_ & Hkey & _) | [(_ & _ & Hcalls) | (Hmode & _)]].
  - discriminate Hkey.
  - exact Hcalls.
  - discriminate Hmode.
Defined.

(** ** What reaches the service *)

Lemma fullPrompt_nonempty p angle : fullPrompt p angle <> "".
Proof.
  unfold fullPrompt. destruct p as [|c p]; cbn [truthy]; discriminate.
Qed.

Lemma wellFormed_handleGenerate pw fw s :
  Forall wellFormed (handleGenerate pw fw s).2.
Proof.
  destruct (mode s) eqn:Hmode.
  - unfold handleGenerate. rewrite Hmode.
    destruct (negb (hasApiKey s)); [constructor|].
    destruct (prompt s) as [|c p] eqn:Hprompt; cbn [truthy negb]; [constructor|].
    destruct (pro_reply pw); repeat constructor; discriminate.
  - destruct (inputImage s) as [[|c rest]|] eqn:Himg.
    + unfold handleGenerate. rewrite Hmode, Himg. constructor.
    + rewrite (handleGenerate_edit_calls pw fw s c rest Hmode Himg).
      apply Forall_fmap, Forall_forall. intros angle _. split.
      * discriminate.
      * apply fullPrompt_nonempty.
    + unfold handleGenerate. rewrite Hmode, Himg. constructor.
Qed.

Lemma wellFormed_handleUpscale pw imageToUpscale s :
  Forall wellFormed (handleUpscale pw imageToUpscale s).2.
Proof.
  unfold handleUpscale. destruct (negb (hasApiKey s)); [constructor|].
  destruct (pro_reply pw); repeat constructor.
Qed.

Lemma wellFormed_act s a : Forall wellFormed (act s a).2.
Proof.
  destruct a as [e|selected|opened|size|ratio|]; cbn [act].
  - destruct e as [m|p|file|pw fw|i| |pw]; cbn [step]; try constructor.
    + destruct file; constructor.
    + unfold clickGenerate. destruct (generateDisabled s); [constructor|].
      apply wellFormed_handleGenerate.
    + destruct (generatedImages s !! i); constructor.
    + unfold clickUpscale. destruct (viewImage s) as [v|]; [|constructor].
      destruct (upscaleDisabled s v); [constructor|].
      apply wellFormed_handleUpscale.
  - constructor.
  - destruct (apiKeyModalShown s); constructor.
  - destruct (mode s); constructor.
  - constructor.
  - destruct (viewImage s); constructor.
Qed.

(** X9: in every session, from every state, each call that goes out to the
    service is well formed: a generate call carries a non-empty prompt, an
    edit call a non-empty source image and a non-empty instruction, and an
    upscale call asks for the size 4K. *)
Theorem session_calls_well_formed actions : forall s,
  Forall wellFormed (session s actions).2.
Proof.
  induction actions as [|a rest IH]; intros s; cbn [session].
  - constructor.
  - pose proof (wellFormed_act s a) as Hact.
    destruct (act s a) as [s1 calls1].
    specialize (IH s1). destruct (session s1 rest) as [s2 calls2].
    cbn [snd] in *. apply Forall_app. split; assumption.
Qed.

(** ** The artifacts on display *)

Lemma builtHere_batchArtifacts fw p : Forall builtHere (batchArtifacts fw p).
Proof.
  rewrite batchArtifacts_angles. apply Forall_forall. intros a Ha.
  apply list_elem_of_omap in Ha as (i & _ & Ha).
  apply artifactOfAngle_Some in Ha as (angle & d & _ & _ & ->).
  split; [reflexivity | left; reflexivity].
Qed.

Lemma builtHere_handleGenerate pw fw s :
  Forall builtHere (generatedImages s) ->
  Forall builtHere (generatedImages (handleGenerate pw fw s).1).
Proof.
  intros Hold. unfold handleGenerate. destruct (mode s).
  - destruct (negb (hasApiKey s)); [exact Hold|].
    destruct (negb (truthy (prompt s))); cbn [fst].
    + rewrite generatedImages_catchGenerate. exact Hold.
    + destruct (pro_reply pw) as [base64|err]; cbn [fst].
      * cbn. constructor; [|constructor].
        split; [reflexivity | right; left; reflexivity].
      * rewrite generatedImages_catchGenerate. exact Hold.
  - destruct (inputImage s) as [[|c rest]|]; cbn [fst];
      try (rewrite generatedImages_catchGenerate; exact Hold).
    destruct (allSettled _ _) as [results|] eqn:Hsettled; cbn [fst]; [|exact Hold].
    apply allSettled_Some in Hsettled. subst results.
    destruct (length _ =? 0)%nat; cbn [fst].
    + rewrite generatedImages_catchGenerate.
      destruct (opt_includes _ _); exact Hold.
    + apply builtHere_batchArtifacts.
Qed.

Lemma viewImage_handleGenerate pw fw s :
  viewImage (handleGenerate pw fw s).1 = viewImage s.
Proof.
  unfold handleGenerate, catchGenerate. destruct (mode s).
  - destruct (negb (hasApiKey s)); [reflexivity|].
    destruct (negb (truthy (prompt s))); [reflexivity|].
    destruct (pro_reply pw) as [base64|err]; [reflexivity|].
    destruct (_ || _); reflexivity.
  - destruct (inputImage s) as [[|c rest]|]; try reflexivity.
    destruct (allSettled _ _) as [results|]; [|reflexivity].
    destruct (length _ =? 0)%nat; [|reflexivity].
    destruct (opt_includes (firstRejectedMessage results) ENTITY_NOT_FOUND);
      destruct (_ || _); reflexivity.
Qed.

Lemma builtHere_act s a :
  artifactsBuiltHere s -> artifactsBuiltHere (act s a).1.
Proof.
  intros Hs. pose proof Hs as [Hstore Hview].
  destruct a as [e|selected|opened|size|ratio|]; cbn [act].
  - destruct e as [m|p|file|pw fw|i| |pw]; cbn [step].
    + exact Hs.
    + exact Hs.
    + destruct file as [result|]; [|exact Hs].
      split; [constructor | exact Hview].
    + unfold clickGenerate. destruct (generateDisabled s); [exact Hs|].
      split; [apply builtHere_handleGenerate; exact Hstore|].
      rewrite viewImage_handleGenerate. exact Hview.
    + destruct (generatedImages s !! i) as [img|] eqn:Hi; [|exact Hs].
      split; [exact Hstore|]. intros v [= <-].
      rewrite Forall_lookup in Hstore. exact (Hstore i img Hi).
    + split; [exact Hstore | discriminate].
    + unfold clickUpscale. destruct (viewImage s) as [v|] eqn:Hv; [|exact Hs].
      destruct (upscaleDisabled s v); [exact Hs|].
      unfold handleUpscale.
      destruct (negb (hasApiKey s)); [exact Hs|].
      destruct (pro_reply pw) as [b|r]; cbn [fst].
      * assert (Hup : builtHere
                  {| img_id := toString (pro_now_id pw);
                     img_data := b;
                     img_mimeType := "image/png";
                     img_prompt := img_prompt v;
                     img_model := "gemini-3-pro-image-preview (Upscaled)";
                     img_timestamp := pro_now_ts pw |}).
        { split; [reflexivity | right; right; reflexivity]. }
        split; [constructor; [exact Hup | exact Hstore]|].
        intros w [= <-]. exact Hup.
      * unfold catchUpscale. destruct (opt_includes _ _); exact Hs.
  - exact Hs.
  - destruct (apiKeyModalShown s); [|exact Hs].
    destruct opened; exact Hs.
  - destruct (mode s); exact Hs.
  - exact Hs.
  - destruct (viewImage s) as [v|] eqn:Hv; exact Hs.
Qed.

Lemma builtHere_session actions : forall s,
  artifactsBuiltHere s -> artifactsBuiltHere (session s actions).1.
Proof.
  induction actions as [|a rest IH]; intros s Hs; cbn [session]; [exact Hs|].
  pose proof (builtHere_act s a Hs) as Hact.
  destruct (act s a) as [s1 calls1]. specialize (IH s1 Hact).
  destruct (session s1 rest) as [s2 calls2]. exact IH.
Qed.

Lemma builtHere_initialState : artifactsBuiltHere initialState.
Proof. split; [constructor | discriminate]. Qed.

(** X10: at every point of every session of the freshly mounted component,
    each artifact in the store, and the artifact in the viewer if there is
    one, is a PNG image tagged with one of the three model identifiers the
    handlers write. *)
Theorem session_artifacts_built_here actions :
  Forall builtHere (generatedImages (session initialState actions).1) /\
  (forall v, viewImage (session initialState actions).1 = Some v -> builtHere v).
Proof.
  destruct (builtHere_session actions initialState builtHere_initialState)
    as [Hstore Hview].
  split; [exact Hstore | exact Hview].
Qed.

Lemma session_artifacts_built_here_witness :
  Forall builtHere (generatedImages (session initialState editAndUpscaleSession).1).
Proof. exact (proj1 (session_artifacts_built_here editAndUpscaleSession)). Defined.

(** X11: on every tile of every session, the badge reads "Flash" exactly for
    the artifacts of an edit batch and "Pro" for all others, upscaled ones
    included, and the viewer marks an artifact as done, and disables its
    upscale control, exactly when it is an upscaled one. *)
Theorem session_badges actions img :
  img ∈ generatedImages (session initialState actions).1 ->
  (badge img = "Flash" <-> img_model img = "gemini-2.5-flash-image") /\
  (badge img = "Pro" <-> img_model img <> "gemini-2.5-flash-image") /\
  (includes (img_model img) "Upscaled" = true
   <-> img_model img = "gemini-3-pro-image-preview (Upscaled)").
Proof.
  intros Hin.
  destruct (builtHere_session actions initialState builtHere_initialState)
    as [Hstore _].
  rewrite Forall_forall in Hstore. destruct (Hstore img Hin) as [_ Hmodel].
  unfold badge.
  destruct Hmodel as [-> | [-> | ->]]; cbn; repeat split;
    (reflexivity || discriminate || congruence || (intros H; exfalso; apply H; reflexivity)).
Qed.

Lemma session_badges_witness :
  badge flashArtifact = "Flash" <-> img_model flashArtifact = "gemini-2.5-flash-image".
Proof.
  refine (proj1 (session_badges
                   [Ui (UploadImage (Some (Some "data:image/png;base64,SRC")));
                    Ui (ClickGenerate (fulfilledPro 0) partialFlash)]
                   flashArtifact _)).
  vm_compute. apply list_elem_of_here.
Defined.

(** ** The seven prompts of a batch *)

Lemma promptSuffix_inj i j a b :
  angles !! i = Some a -> angles !! j = Some b ->
  promptSuffix a = promptSuffix b -> i = j.
Proof.
  intros Ha Hb H.
  do 8 (try destruct i as [|i]); try discriminate Ha;
    do 8 (try destruct j as [|j]); try discriminate Hb;
    cbn in Ha, Hb; injection Ha as <-; injection Hb as <-;
    first [reflexivity | discriminate H].
Qed.

Lemma angle_label_inj i j a b x y :
  angles !! i = Some a -> angles !! j = Some b ->
  name a +:+ ": " +:+ x = name b +:+ ": " +:+ y -> i = j.
Proof.
  intros Ha Hb H.
  do 8 (try destruct i as [|i]); try discriminate Ha;
    do 8 (try destruct j as [|j]); try discriminate Hb;
    cbn in Ha, Hb; injection Ha as <-; injection Hb as <-;
    first [reflexivity | discriminate H].
Qed.

Lemma fullPrompt_inj p i j a b :
  angles !! i = Some a -> angles !! j = Some b ->
  fullPrompt p a = fullPrompt p b -> i = j.
Proof.
  intros Ha Hb H. apply (promptSuffix_inj i j a b Ha Hb).
  unfold fullPrompt in H. destruct (truthy p).
  - apply (inj (String.app p)) in H. apply (inj (String.app ", ")) in H. exact H.
  - apply (inj (String.app "Keep the subject but change camera to ")) in H. exact H.
Qed.

Lemma NoDup_omap_fmap {X Y Z} (f : X -> option Y) (h : Y -> Z) (g : X -> Z) l :
  (forall x a, f x = Some a -> h a = g x) ->
  NoDup (map g l) -> NoDup (map h (omap f l)).
Proof.
  intros Hfg. induction l as [|x l IH]; csimpl; intros Hnd.
  - constructor.
  - apply NoDup_cons in Hnd as [Hx Hnd].
    destruct (f x) as [a|] eqn:Hfx; [|exact (IH Hnd)].
    csimpl. apply NoDup_cons. split; [|exact (IH Hnd)].
    rewrite (Hfg x a Hfx). intros Hin. apply Hx.
    apply list_elem_of_fmap in Hin as (b & Hgb & Hb).
    apply list_elem_of_omap in Hb as (y & Hy & Hfy).
    rewrite Hgb, (Hfg y b Hfy). apply list_elem_of_fmap. exists y. auto.
Qed.

(** X12: whatever the instruction, the seven calls of a batch carry seven
    different prompts, and the artifacts the batch produces carry pairwise
    different prompt strings, so that each stored artifact tells its angle. *)
Theorem batch_prompts_distinct pw fw s image :
  mode s = EDIT_ANGLES ->
  inputImage s = Some image ->
  truthy image = true ->
  NoDup (handleGenerate pw fw s).2 /\
  NoDup (map img_prompt (batchArtifacts fw (prompt s))) /\
  (settlesAll fw -> error (handleGenerate pw fw s).1 = None ->
   NoDup (map img_prompt (generatedImages (handleGenerate pw fw s).1))).
Proof.
  intros Hmode Himg Htruthy. destruct image as [|c rest]; [discriminate|].
  assert (Hprompts : NoDup (map img_prompt (batchArtifacts fw (prompt s)))).
  { rewrite batchArtifacts_angles.
    apply (NoDup_omap_fmap _ _
             (fun i => match angles !! i with
                       | Some angle => name angle +:+ ": " +:+ fullPrompt (prompt s) angle
                       | None => ""
                       end)).
    - intros i a Ha. apply artifactOfAngle_Some in Ha as (angle & d & -> & _ & ->).
      reflexivity.
    - apply NoDup_fmap_2_strong; [|apply NoDup_seq].
      intros i j Hi Hj Heq. apply elem_of_seq in Hi, Hj.
      destruct (angles !! i) as [a|] eqn:Ha;
        [|apply lookup_ge_None in Ha; rewrite length_angles in Ha; lia].
      destruct (angles !! j) as [b|] eqn:Hb;
        [|apply lookup_ge_None in Hb; rewrite length_angles in Hb; lia].
      exact (angle_label_inj i j a b _ _ Ha Hb Heq). }
  split; [|split; [exact Hprompts|]].
  - rewrite (handleGenerate_edit_calls pw fw s c rest Hmode Himg).
    apply NoDup_alt. intros i j call Hi Hj.
    rewrite list_lookup_fmap in Hi, Hj.
    destruct (angles !! i) as [a|] eqn:Ha; [|discriminate Hi].
    destruct (angles !! j) as [b|] eqn:Hb; [|discriminate Hj].
    cbn in Hi, Hj. rewrite <- Hj in Hi. injection Hi as Hfull.
    exact (fullPrompt_inj (prompt s) i j a b Ha Hb Hfull).
  - intros Hall. rewrite (handleGenerate_edit pw fw s c rest Hmode Himg Hall).
    cbv zeta. cbn [fst].
    destruct (length _ =? 0)%nat.
    + rewrite error_catchGenerate_Error by (apply truthy_or_else; reflexivity).
      discriminate.
    + intros _. exact Hprompts.
Qed.

Lemma batch_prompts_distinct_witness :
  NoDup (handleGenerate (fulfilledPro 0) partialFlash
           (setPrompt "at night" editState)).2.
Proof.
  exact (proj1 (batch_prompts_distinct (fulfilledPro 0) partialFlash
                  (setPrompt "at night" editState) "data:image/png;base64,SRC"
                  eq_refl eq_refl eq_refl)).
Defined.

(** ** Zoom *)



(** ** Names and identifiers *)

Lemma length_append a b :
  String.length (a +:+ b) = String.length a + String.length b.
Proof.
  induction a as [|c a IH]; [reflexivity|].
  change (S (String.length (a +:+ b)) = S (String.length a + String.length b)).
  rewrite IH. reflexivity.
Qed.

Lemma append_inv_tail a b t : a +:+ t = b +:+ t -> a = b.
Proof.
  revert b. induction a as [|c a IH]; intros [|d b] H.
  - reflexivity.
  - change (t = String d (b +:+ t)) in H.
    apply (f_equal String.length) in H.
    cbn [String.length] in H. rewrite length_append in H. lia.
  - change (String c (a +:+ t) = t) in H.
    apply (f_equal String.length) in H.
    cbn [String.length] in H. rewrite length_append in H. lia.
  - change (String c (a +:+ t) = String d (b +:+ t)) in H.
    injection H as -> H. f_equal. apply IH. exact H.
Qed.

(** X14: the download link names the file after the artifact's id, and two
    artifacts get the same file name exactly when they have the same id. *)
Theorem downloadName_inj a b :
  downloadName a = downloadName b <-> img_id a = img_id b.
Proof.
  unfold downloadName. split.
  - intros H. apply (inj (String.app "gemini-image-")) in H.
    apply append_inv_tail in H. exact H.
  - intros ->. reflexivity.
Qed.

Lemma to_int_not_nil z :
  Z.to_int z <> Decimal.Pos Decimal.Nil /\ Z.to_int z <> Decimal.Neg Decimal.Nil.
Proof.
  split; intros H; pose proof (f_equal Z.of_int H) as H';
    rewrite DecimalZ.of_to in H'; subst z; vm_compute in H; discriminate H.
Qed.

(** The decimal text of a number determines the number. *)
Lemma toString_inj a b : toString a = toString b -> a = b.
Proof.
  unfold toString. intros H. apply DecimalZ.to_int_inj.
  destruct (to_int_not_nil a) as [Ha1 Ha2].
  destruct (to_int_not_nil b) as [Hb1 Hb2].
  pose proof (NilZero.isi (Z.to_int a) Ha1 Ha2) as Ia.
  pose proof (NilZero.isi (Z.to_int b) Hb1 Hb2) as Ib.
  rewrite H in Ia. rewrite Ia in Ib. injection Ib as Hab. exact Hab.
Qed.

(** X15: two upscales in a row, both fulfilled, leave their two artifacts at
    the head of the store, and these carry the same id exactly when the clock
    read the same millisecond at both completions. *)
Theorem upscale_ids_follow_the_clock pw1 pw2 img1 img2 s b1 b2 :
  hasApiKey s = true ->
  pro_reply pw1 = Fulfilled b1 ->
  pro_reply pw2 = Fulfilled b2 ->
  exists u1 u2,
    generatedImages
      (handleUpscale pw2 img2 (handleUpscale pw1 img1 s).1).1
    = u2 :: u1 :: generatedImages s /\
    (img_id u1 = img_id u2 <-> pro_now_id pw1 = pro_now_id pw2).
Proof.
  intros Hkey H1 H2.
  rewrite (handleUpscale_fulfilled pw1 img1 s b1 Hkey H1). cbv zeta. cbn [fst].
  rewrite (handleUpscale_fulfilled pw2 img2 _ b2) by (exact Hkey || exact H2).
  cbv zeta. cbn [fst generatedImages setIsUpscaling updGeneratedImages setViewImage
                  setZoomLevel].
  eexists _, _. split; [reflexivity|]. cbn [img_id].
  split; [apply toString_inj | intros ->; reflexivity].
Qed.

Lemma upscale_ids_follow_the_clock_witness :
  exists u1 u2,
    generatedImages
      (handleUpscale (fulfilledPro 1700000000001) flashArtifact
         (handleUpscale (fulfilledPro 1700000000000) flashArtifact editState).1).1
    = [u2; u1] /\
    img_id u1 <> img_id u2.
Proof.
  destruct (upscale_ids_follow_the_clock
              (fulfilledPro 1700000000000) (fulfilledPro 1700000000001)
              flashArtifact flashArtifact editState
              "data:image/png;base64,PRO" "data:image/png;base64,PRO"
              eq_refl eq_refl eq_refl) as (u1 & u2 & Hstore & Hids).
  exists u1, u2. split; [exact Hstore|].
  intros Heq. apply Hids in Heq. discriminate Heq.
Defined.

Lemma storedIds_distinct_act s a :
  NoDup (storedIds s) -> freshAction s a -> NoDup (storedIds (act s a).1).
Proof.
  intros Hnd Hfresh. destruct a as [e|selected|opened|size|ratio|]; cbn [act].
  - apply storedIds_distinct_step; assumption.
  - exact Hnd.
  - destruct (apiKeyModalShown s); [destruct opened|]; exact Hnd.
  - destruct (mode s); exact Hnd.
  - exact Hnd.
  - destruct (viewImage s); exact Hnd.
Qed.

(** X16: along every session in which the tokens drawn are fresh (the UUIDs
    of each batch pairwise distinct, and the clock reading that an upscale
    turns into an id not the id of an artifact in the store at that moment),
    the ids of the stored artifacts stay pairwise distinct. *)
Theorem session_ids_distinct actions : forall s,
  NoDup (storedIds s) ->
  freshActions s actions ->
  NoDup (storedIds (session s actions).1).
Proof.
  induction actions as [|a rest IH]; intros s Hnd Hfresh; [exact Hnd|].
  destruct Hfresh as [Ha Hrest]. cbn [session].
  pose proof (storedIds_distinct_act s a Hnd Ha) as Hact.
  destruct (act s a) as [s1 calls1] eqn:Hs1.
  specialize (IH s1 Hact Hrest).
  destruct (session s1 rest) as [s2 calls2]. exact IH.
Qed.

Lemma session_ids_distinct_witness :
  freshActions initialState editAndUpscaleSession /\
  NoDup (storedIds (session initialState editAndUpscaleSession).1).
Proof.
  assert (Hfresh : freshActions initialState editAndUpscaleSession).
  { cbn [freshActions editAndUpscaleSession freshAction freshIds].
    repeat split; apply (bool_decide_unpack _); vm_compute; exact I. }
  split; [exact Hfresh|].
  apply (session_ids_distinct editAndUpscaleSession initialState);
    [constructor | exact Hfresh].
Defined.

(** ** Uploading, the edge cases *)

(** X17: when no file is chosen nothing changes; when the read fails or
    yields an empty data URL the store is emptied all the same and, in edit
    mode, the generate control is disabled; after the upload of a non-empty
    data URL the control is enabled in edit mode unless the component is
    loading; and an upload never touches the error slot, the viewed image,
    the prompt or the authorized flag. *)
Theorem upload_edge_cases s :
  handleImageUpload None s = (s, []) /\
  (forall result,
     result = None \/ result = Some "" ->
     generatedImages (handleImageUpload (Some result) s).1 = [] /\
     (mode s = EDIT_ANGLES ->
      generateDisabled (handleImageUpload (Some result) s).1 = true)) /\
  (forall dataUrl,
     truthy dataUrl = true -> mode s = EDIT_ANGLES ->
     generateDisabled (handleImageUpload (Some (Some dataUrl)) s).1 = isLoading s) /\
  (forall file,
     let s' := (handleImageUpload file s).1 in
     error s' = error s /\ viewImage s' = viewImage s /\
     prompt s' = prompt s /\ hasApiKey s' = hasApiKey s /\ mode s' = mode s).
Proof.
  split; [reflexivity|]. split; [|split].
  - intros result Hres. split; [reflexivity|].
    intros Hmode. unfold generateDisabled. cbn. rewrite Hmode.
    destruct Hres as [-> | ->]; cbn; apply orb_true_r.
  - intros dataUrl Htruthy Hmode. unfold generateDisabled. cbn.
    rewrite Hmode, Htruthy. cbn. apply orb_false_r.
  - intros [result|]; cbn; repeat split.
Qed.

Lemma upload_edge_cases_witness :
  generateDisabled (handleImageUpload (Some (Some "")) editState).1 = true /\
  generateDisabled (handleImageUpload (Some (Some "data:image/png;base64,NEW")) editState).1
  = false.
Proof.
  destruct (upload_edge_cases editState) as (_ & Hbad & Hgood & _).
  split.
  - exact (proj2 (Hbad (Some "") (or_intror eq_refl)) eq_refl).
  - exact (Hgood "data:image/png;base64,NEW" eq_refl eq_refl).
Defined.

(** ** Failures *)



(** X19: after an edit batch the authorized flag depends on the first call
    alone: when at least one call is fulfilled the flag keeps its value
    whatever the rejected calls say, and when all seven are rejected it is
    turned off exactly when the message of the call for the first angle
    contains "Requested entity was not found" or "API key", whatever the
    other six messages contain. *)
Theorem batch_flag_follows_first_call pw fw s image :
  mode s = EDIT_ANGLES ->
  inputImage s = Some image ->
  truthy image = true ->
  settlesAll fw ->
  ((exists i, i < 7 /\ isFulfilled (flash_reply fw i) = true) ->
   hasApiKey (handleGenerate pw fw s).1 = hasApiKey s) /\
  (forall r0,
     (forall i, i < 7 -> isRejected (flash_reply fw i) = true) ->
     flash_reply fw 0 = Rejected r0 ->
     hasApiKey (handleGenerate pw fw s).1
     = hasApiKey s
       && negb (opt_includes (message r0) ENTITY_NOT_FOUND
                || opt_includes (message r0) "API key")).
Proof.
  intros Hmode Himg Htruthy Hall. destruct image as [|c rest]; [discriminate|].
  rewrite (handleGenerate_edit pw fw s c rest Hmode Himg Hall). cbv zeta. cbn [fst].
  pose proof (batchArtifacts_nil fw (prompt s)) as Hnil.
  destruct (batchArtifacts fw (prompt s)) as [|a arts] eqn:Harts; cbn [length Nat.eqb].
  - split.
    + intros (i & Hi & Hful). pose proof (proj1 Hnil eq_refl i Hi) as Hrej.
      destruct (flash_reply fw i); discriminate.
    + intros r0 _ H0.
      rewrite (firstRejectedMessage_batch fw (prompt s) r0 H0).
      rewrite hasApiKey_catchGenerate. cbn [message Error opt_includes].
      rewrite <- !(opt_includes_or_else (message r0)
                     "Failed to generate any variations.") by reflexivity.
      destruct (opt_includes (message r0) ENTITY_NOT_FOUND);
        destruct (opt_includes (message r0) "API key");
        cbn; rewrite ?andb_false_r, ?andb_true_r; reflexivity.
  - split.
    + intros _. reflexivity.
    + intros r0 Hrej _. apply Hnil in Hrej. discriminate Hrej.
Qed.

Lemma batch_flag_follows_first_call_witness :
  settlesAll mixedFailingFlash /\
  hasApiKey (handleGenerate (fulfilledPro 0) mixedFailingFlash editState).1 = true.
Proof.
  assert (H : settlesAll mixedFailingFlash).
  { unfold settlesAll. apply (bool_decide_unpack _). vm_compute. exact I. }
  split; [exact H|].
  rewrite (proj2 (batch_flag_follows_first_call (fulfilledPro 0) mixedFailingFlash
                    editState "data:image/png;base64,SRC" eq_refl eq_refl eq_refl H)
             (Error "The model is overloaded.")
             (fun i _ => match i with 0 => eq_refl | S _ => eq_refl end)
             eq_refl).
  reflexivity.
Defined.
